(** * BluePrint eDNA backend: taxonomic assignments and biodiversity metrics

    A shallow embedding of [blueprint_backend/core/models.py] (the
    [TaxonomicAssignment] and [BiodiversityMetrics] tables) and of
    [blueprint_backend/core/tasks.py] (the tasks
    [calculate_biodiversity_metrics] and [process_sequence_file]).

    Conventions.
    - Python [int] is [Z].  Python [float] is idealised: rational arithmetic
      is carried out exactly in [Q], and the one transcendental quantity
      (the Shannon index, which calls [np.log]) lives in [R].  Statements
      about these values are made so that rounding cannot break them, or
      say that they hold in exact arithmetic; where rounding matters, the
      module [Doubles] evaluates the same expressions on IEEE 754 binary64
      numbers.
    - A Django queryset is the list of rows it yields; all theorems quantify
      over arbitrary lists, hence over every row order.
    - A Python [dict] is an association list in insertion order.
    - An exception is a value of [pyexn]; code that may raise returns a
      [pyresult]. *)

From Stdlib Require Import ZArith QArith Qround Qminmax Ascii String List Bool Lia Lqa.
From Stdlib Require Import Permutation.
From Stdlib Require Import Reals Qreals Lra.
From Stdlib Require Import DecimalString DecimalNat.
From Stdlib Require Floats Uint63.
Import ListNotations.

Local Open Scope string_scope.
Local Open Scope Z_scope.

(** ** Python exceptions and results *)

Inductive pyexn : Type :=
| ZeroDivisionError
| IntegrityError
| DoesNotExist.

Inductive pyresult (A : Type) : Type :=
| Ok (a : A)
| Raise (e : pyexn).

Arguments Ok {A} a.
Arguments Raise {A} e.

Definition bind {A B : Type} (m : pyresult A) (k : A -> pyresult B) : pyresult B :=
  match m with
  | Ok a => k a
  | Raise e => Raise e
  end.

Declare Scope py_scope.
Delimit Scope py_scope with py.
Notation "x <- m ;; k" := (bind m (fun x => k))
  (at level 61, m at next level, right associativity) : py_scope.

(** [a / b] on two Python ints: true division, raising on a zero divisor. *)
Definition truediv (a b : Z) : pyresult Q :=
  if b =? 0 then Raise ZeroDivisionError else Ok (inject_Z a / inject_Z b)%Q.

(** ** models.py *)

Inductive confidence : Type :=
| high
| medium
| low
| uncertain.

Definition confidence_eqb (a b : confidence) : bool :=
  match a, b with
  | high, high | medium, medium | low, low | uncertain, uncertain => true
  | _, _ => false
  end.

(** [class TaxonomicAssignment].  [sample] is the foreign key (the primary
    key of the owning [Sample]).  The automatic columns [id], [created_at]
    and [updated_at] are left out. *)
Record TaxonomicAssignment : Type := mkAssignment {
  sample : Z;
  sequence_id : string;
  sequence_data : string;
  kingdom : string;
  phylum : option string;
  class_name : option string;
  order : option string;
  family : option string;
  genus : option string;
  species : option string;
  database_source : string;
  confidence_level : confidence;
  confidence_score : Q;
  identity_percent : option Q;
  coverage_percent : option Q;
  e_value : option Q;
  best_match_accession : option string;
  is_novel_taxon : bool;
  novel_cluster_id : option string;
  read_count : Z;
  relative_abundance : option Q
}.

(** [class BiodiversityMetrics], the columns written by the task. *)
Record BiodiversityMetrics : Type := mkMetrics {
  shannon_diversity : R;
  simpson_diversity : Q;
  chao1_richness : Q;
  observed_otus : Z;
  total_sequences : Z;
  assigned_sequences : Z;
  novel_sequences : Z;
  assignment_rate : Q;
  protist_percentage : Q;
  metazoan_percentage : Q;
  cnidarian_percentage : Q;
  fungi_percentage : Q
}.

(** ** tasks.py, [calculate_biodiversity_metrics]: the computation *)

Module Metrics.

(** [x or y] where [x] is a nullable string and [y] a string: [None] and
    [''] are falsy. *)
Definition or_opt (x : option string) (y : string) : string :=
  match x with
  | Some s => if String.eqb s "" then y else s
  | None => y
  end.

(** [x or y] on two strings. *)
Definition or_str (x y : string) : string :=
  if String.eqb x "" then y else x.

(** [f"{x}"] for a nullable string: [None] prints as ["None"]. *)
Definition format_opt (x : option string) : string :=
  match x with
  | Some s => s
  | None => "None"
  end.

(** [assignment.species or f"{assignment.genus}_sp" or "Unknown"];
    [or] associates to the left, and [a or b or c] has the same value
    either way. *)
Definition species_key (a : TaxonomicAssignment) : string :=
  or_str (or_opt (species a) (format_opt (genus a) ++ "_sp")) "Unknown".

(** [if species in species_counts: species_counts[species] += reads
     else: species_counts[species] = reads] *)
Fixpoint dict_add (k : string) (v : Z) (d : list (string * Z)) : list (string * Z) :=
  match d with
  | [] => [(k, v)]
  | (k', v') :: d' =>
      if String.eqb k' k then (k', v' + v) :: d' else (k', v') :: dict_add k v d'
  end.

(** One iteration of the grouping loop on the pair
    [(species_counts, total_reads)]. *)
Definition group_step (st : list (string * Z) * Z) (a : TaxonomicAssignment)
  : list (string * Z) * Z :=
  (dict_add (species_key a) (read_count a) (fst st), snd st + read_count a).

Definition group_loop (assignments : list TaxonomicAssignment)
  : list (string * Z) * Z :=
  fold_left group_step assignments ([], 0).

Definition species_counts (assignments : list TaxonomicAssignment) : list (string * Z) :=
  fst (group_loop assignments).

Definition total_reads (assignments : list TaxonomicAssignment) : Z :=
  snd (group_loop assignments).

(** The dictionary half of [group_step], and the sum of a list of counts. *)
Definition add_group (d : list (string * Z)) (a : TaxonomicAssignment) : list (string * Z) :=
  dict_add (species_key a) (read_count a) d.

Definition zsum (l : list Z) : Z := fold_right Z.add 0 l.

(** [species_counts.get(k)], and the reads of the assignments whose key
    is [k]. *)
Fixpoint dict_get (k : string) (d : list (string * Z)) : option Z :=
  match d with
  | [] => None
  | (k', v') :: d' => if String.eqb k' k then Some v' else dict_get k d'
  end.

Definition has_key (k : string) (a : TaxonomicAssignment) : bool :=
  String.eqb (species_key a) k.

Definition reads_of_key (k : string) (assignments : list TaxonomicAssignment) : Z :=
  zsum (map read_count (filter (has_key k) assignments)).

(** [species_counts.values()] *)
Definition values (d : list (string * Z)) : list Z := map snd d.

(** [len(species_counts)] *)
Definition otus (d : list (string * Z)) : Z := Z.of_nat (length d).

(** [shannon_diversity -= p * np.log(p)] for each [count > 0].  [np.log]
    is the real logarithm on positive arguments, the only ones reached when
    [total_reads > 0]; numpy's [nan] on a negative argument is not
    represented. *)
Fixpoint shannon_loop (counts : list Z) (total : Z) (acc : R) : pyresult R :=
  match counts with
  | [] => Ok acc
  | count :: rest =>
      if count >? 0 then
        (p <- truediv count total ;;
         shannon_loop rest total (acc - Q2R p * ln (Q2R p))%R)%py
      else shannon_loop rest total acc
  end.

Definition shannon (d : list (string * Z)) (total : Z) : pyresult R :=
  shannon_loop (values d) total 0%R.

(** [simpson_diversity += p * p] for each [count > 0], in exact
    arithmetic; [Doubles.simpson_loop] is the rounded sum. *)
Fixpoint simpson_loop (counts : list Z) (total : Z) (acc : Q) : pyresult Q :=
  match counts with
  | [] => Ok acc
  | count :: rest =>
      if count >? 0 then
        (p <- truediv count total ;;
         simpson_loop rest total (acc + p * p)%Q)%py
      else simpson_loop rest total acc
  end.

(** [simpson_diversity = 1 - simpson_diversity] *)
Definition simpson (d : list (string * Z)) (total : Z) : pyresult Q :=
  (s <- simpson_loop (values d) total 0%Q ;; Ok (1 - s)%Q)%py.

(** [sum(1 for count in species_counts.values() if count == n)] *)
Definition count_eq (n : Z) (d : list (string * Z)) : Z :=
  Z.of_nat (length (filter (fun count => count =? n) (values d))).

Definition singletons (d : list (string * Z)) : Z := count_eq 1 d.
Definition doubletons (d : list (string * Z)) : Z := count_eq 2 d.

(** The Chao1 estimator; the guard makes the division safe. *)
Definition chao1 (d : list (string * Z)) : Q :=
  if doubletons d >? 0 then
    (inject_Z (otus d)
     + inject_Z (singletons d * singletons d) / inject_Z (2 * doubletons d))%Q
  else inject_Z (otus d).

(** The four phylum lists. *)
Definition protist_phylums : list string :=
  ["Foraminifera"; "Radiolaria"; "Ciliophora"; "Dinoflagellata"].
Definition metazoan_phylums : list string :=
  ["Nematoda"; "Arthropoda"; "Mollusca"; "Annelida"].
Definition cnidarian_phylums : list string := ["Cnidaria"].
Definition fungi_phylums : list string := ["Ascomycota"; "Basidiomycota"].

(** [phylum__in=names]: a NULL phylum matches nothing. *)
Definition phylum_in (names : list string) (a : TaxonomicAssignment) : bool :=
  match phylum a with
  | Some p => existsb (String.eqb p) names
  | None => false
  end.

(** [assignments.filter(phylum__in=names)
       .aggregate(total=Sum('read_count'))['total'] or 0] *)
Definition group_reads (names : list string) (assignments : list TaxonomicAssignment) : Z :=
  fold_right Z.add 0 (map read_count (filter (phylum_in names) assignments)).

(** [(reads / total_reads * 100) if total_reads > 0 else 0], in exact
    arithmetic; [Doubles.percentage] is the rounded value. *)
Definition percentage (reads total : Z) : Q :=
  if total >? 0 then (inject_Z reads / inject_Z total * 100)%Q else 0%Q.

(** [assignments.count()] *)
Definition count_all (assignments : list TaxonomicAssignment) : Z :=
  Z.of_nat (length assignments).

(** [assignments.filter(is_novel_taxon=True).count()] *)
Definition count_novel (assignments : list TaxonomicAssignment) : Z :=
  Z.of_nat (length (filter is_novel_taxon assignments)).

(** [assigned_sequences / total_reads if total_reads > 0 else 0] *)
Definition rate (assigned total : Z) : Q :=
  if total >? 0 then (inject_Z assigned / inject_Z total)%Q else 0%Q.

(** The body of the task between the emptiness test and
    [update_or_create]: the values of the [defaults] dictionary. *)
Definition compute (assignments : list TaxonomicAssignment) : pyresult BiodiversityMetrics :=
  (let counts := species_counts assignments in
   let total := total_reads assignments in
   let observed := otus counts in
   h <- shannon counts total ;;
   d <- simpson counts total ;;
   let c := chao1 counts in
   let protist_reads := group_reads protist_phylums assignments in
   let metazoan_reads := group_reads metazoan_phylums assignments in
   let cnidarian_reads := group_reads cnidarian_phylums assignments in
   let fungi_reads := group_reads fungi_phylums assignments in
   let assigned := count_all assignments in
   let novel := count_novel assignments in
   Ok {| shannon_diversity := h;
         simpson_diversity := d;
         chao1_richness := c;
         observed_otus := observed;
         total_sequences := total;
         assigned_sequences := assigned;
         novel_sequences := novel;
         assignment_rate := rate assigned total;
         protist_percentage := percentage protist_reads total;
         metazoan_percentage := percentage metazoan_reads total;
         cnidarian_percentage := percentage cnidarian_reads total;
         fungi_percentage := percentage fungi_reads total |})%py.

End Metrics.

(** ** The database, the random generator and the task results *)

(** [class Sample]: the primary key and the [sample_id] column. *)
Record Sample : Type := mkSample {
  pk : Z;
  sample_id : string
}.

(** A task queued with [.delay(...)]. *)
Inductive queued : Type :=
| CalculateBiodiversityMetrics (sample_pk : Z).

(** The tables the two tasks touch.  [biodiversity_metrics] is keyed by the
    sample (a [OneToOneField]); [taxonomic_assignments] is subject to
    [unique_together = ['sample', 'sequence_id']]. *)
Record Database : Type := mkDatabase {
  samples : list Sample;
  taxonomic_assignments : list TaxonomicAssignment;
  biodiversity_metrics : list (Z * BiodiversityMetrics);
  queue : list queued
}.

(** The module-level generator of [random], abstracted as the sequence of
    unit-interval variates it yields and a cursor into it.  Every value the
    library functions used below can return is the image of some variate in
    [[0, 1)], so every run of the code is the run of the model on some
    sequence. *)
Record Random : Type := mkRandom {
  variates : nat -> Q;
  cursor : nat
}.

Record World : Type := mkWorld {
  db : Database;
  rng : Random
}.

(** What a task returns: one of its result dictionaries. *)
Inductive task_result : Type :=
| MetricsDone (sample_pk : Z) (shannon : R) (simpson : Q) (observed total : Z)
| FileProcessed (sample_pk : Z) (assignments_created : Z) (file_processed : string)
| ErrorMessage (msg : string)
| SampleNotFound (sample_pk : Z)
| ErrorOf (e : pyexn).

(** Stateful code that may raise: the state reached when the exception
    is raised is kept (every ORM call commits on its own). *)
Definition M (A : Type) : Type := World -> pyresult A * World.

Definition ret {A : Type} (a : A) : M A := fun w => (Ok a, w).

Definition mbind {A B : Type} (m : M A) (k : A -> M B) : M B :=
  fun w =>
    match m w with
    | (Ok a, w') => k a w'
    | (Raise e, w') => (Raise e, w')
    end.

(** [try: body except Exception as e: handler(e)] *)
Definition try_except {A : Type} (body : M A) (handler : pyexn -> M A) : M A :=
  fun w =>
    match body w with
    | (Ok a, w') => (Ok a, w')
    | (Raise e, w') => handler e w'
    end.

Definition lift {A : Type} (r : pyresult A) : M A := fun w => (r, w).

Declare Scope task_scope.
Delimit Scope task_scope with task.
Notation "x <- m ;; k" := (mbind m (fun x => k))
  (at level 61, m at next level, right associativity) : task_scope.
Notation "m ;; k" := (mbind m (fun _ => k))
  (at level 61, right associativity) : task_scope.

Module Orm.

Definition set_assignments (rows : list TaxonomicAssignment) (d : Database) : Database :=
  {| samples := samples d;
     taxonomic_assignments := rows;
     biodiversity_metrics := biodiversity_metrics d;
     queue := queue d |}.

Definition set_metrics (rows : list (Z * BiodiversityMetrics)) (d : Database) : Database :=
  {| samples := samples d;
     taxonomic_assignments := taxonomic_assignments d;
     biodiversity_metrics := rows;
     queue := queue d |}.

Definition set_queue (q : list queued) (d : Database) : Database :=
  {| samples := samples d;
     taxonomic_assignments := taxonomic_assignments d;
     biodiversity_metrics := biodiversity_metrics d;
     queue := q |}.

Definition with_db (f : Database -> Database) (w : World) : World :=
  {| db := f (db w); rng := rng w |}.

(** [Sample.objects.get(id=sample_pk)] *)
Definition get_sample (sample_pk : Z) : M Sample :=
  fun w =>
    match find (fun s => pk s =? sample_pk) (samples (db w)) with
    | Some s => (Ok s, w)
    | None => (Raise DoesNotExist, w)
    end.

(** [sample.taxonomic_assignments.all()] *)
Definition assignments_of (s : Sample) (d : Database) : list TaxonomicAssignment :=
  filter (fun a => sample a =? pk s) (taxonomic_assignments d).

(** [queryset.exists()] *)
Definition exists_ {A : Type} (rows : list A) : bool :=
  match rows with
  | [] => false
  | _ :: _ => true
  end.

Definition all_assignments (s : Sample) : M (list TaxonomicAssignment) :=
  fun w => (Ok (assignments_of s (db w)), w).

(** The [unique_together] test on [(sample, sequence_id)]. *)
Definition same_key (a b : TaxonomicAssignment) : bool :=
  (sample a =? sample b) && String.eqb (sequence_id a) (sequence_id b).

(** [TaxonomicAssignment.objects.create(...)]: an INSERT, refused with
    [IntegrityError] when a row with the same [(sample, sequence_id)]
    exists. *)
Definition create (a : TaxonomicAssignment) : M TaxonomicAssignment :=
  fun w =>
    if existsb (same_key a) (taxonomic_assignments (db w))
    then (Raise IntegrityError, w)
    else (Ok a, with_db (set_assignments (taxonomic_assignments (db w) ++ [a])) w).

(** [BiodiversityMetrics.objects.update_or_create(sample=s, defaults=m)] *)
Fixpoint upsert (s : Z) (m : BiodiversityMetrics) (rows : list (Z * BiodiversityMetrics))
  : list (Z * BiodiversityMetrics) :=
  match rows with
  | [] => [(s, m)]
  | (s', m') :: rest =>
      if s' =? s then (s', m) :: rest else (s', m') :: upsert s m rest
  end.

(** [models.IntegerField]: the values every database Django supports
    stores are those from -2147483648 to 2147483647. *)
Definition integer_field (z : Z) : Prop := -2147483648 <= z <= 2147483647.

(** [BiodiversityMetrics.objects.update_or_create(sample=sample,
    defaults=...)]: the columns of [defaults] replace those of the sample's
    record, or make a new record.  The write is taken to succeed, which
    the database grants when the integer columns are in the range
    [integer_field]; the column [calculation_date], which every save
    rewrites, is kept apart in [Dated]. *)
Definition update_or_create (s : Sample) (m : BiodiversityMetrics) : M unit :=
  fun w => (Ok tt, with_db (fun d => set_metrics (upsert (pk s) m (biodiversity_metrics d)) d) w).

(** [calculate_biodiversity_metrics.delay(sample_pk)] *)
Definition delay (t : queued) : M unit :=
  fun w => (Ok tt, with_db (fun d => set_queue (queue d ++ [t]) d) w).

End Orm.

Module PyRandom.

(** [random.random()] *)
Definition random : M Q :=
  fun w =>
    (Ok (variates (rng w) (cursor (rng w))),
     {| db := db w;
        rng := {| variates := variates (rng w); cursor := S (cursor (rng w)) |} |}).

(** [random.uniform(a, b)] is [a + (b - a) * random()].  In exact
    arithmetic the value stays below [b]; rounded to a double it can be
    [b] itself ([Doubles.uniform]). *)
Definition uniform (a b : Q) : M Q :=
  (u <- random ;; ret (a + (b - a) * u)%Q)%task.

(** [random.randint(a, b)]: an integer of [[a, b]]. *)
Definition randint (a b : Z) : M Z :=
  (u <- random ;; ret (a + Qfloor (u * inject_Z (b - a + 1))))%task.

(** [random.choice(seq)] on a non-empty sequence. *)
Definition choice {A : Type} (seq : list A) (dflt : A) : M A :=
  (u <- random ;;
   ret (nth (Z.to_nat (Qfloor (u * inject_Z (Z.of_nat (length seq))))) seq dflt))%task.

(** The world after [k] more draws. *)
Definition advance (k : nat) (w : World) : World :=
  {| db := db w;
     rng := {| variates := variates (rng w); cursor := (k + cursor (rng w))%nat |} |}.

(** The sequences a generator can yield. *)
Definition unit_interval (r : Random) : Prop :=
  forall n, (0 <= variates r n /\ variates r n < 1)%Q.

End PyRandom.

(** ** tasks.py, the two tasks *)

Module Tasks.
Import Orm PyRandom.

(** [calculate_biodiversity_metrics], the body of the [try]. *)
Definition calculate_body (sample_pk : Z) : M task_result :=
  (s <- get_sample sample_pk ;;
   assignments <- all_assignments s ;;
   if negb (exists_ assignments)
   then ret (ErrorMessage "No taxonomic assignments found for sample")
   else
     m <- lift (Metrics.compute assignments) ;;
     update_or_create s m ;;
     ret (MetricsDone sample_pk (shannon_diversity m) (simpson_diversity m)
                      (observed_otus m) (total_sequences m)))%task.

(** The two [except] clauses shared by the tasks. *)
Definition on_error (sample_pk : Z) (e : pyexn) : M task_result :=
  match e with
  | DoesNotExist => ret (SampleNotFound sample_pk)
  | _ => ret (ErrorOf e)
  end.

Definition calculate_biodiversity_metrics (sample_pk : Z) : M task_result :=
  try_except (calculate_body sample_pk) (on_error sample_pk).

(** The entries of [sample_taxa]. *)
Record taxon : Type := mkTaxon {
  t_kingdom : string;
  t_phylum : string;
  t_genus : string;
  t_species : string
}.

Definition sample_taxa : list taxon :=
  [ mkTaxon "Eukaryota" "Foraminifera" "Globigerina" "Globigerina bulloides";
    mkTaxon "Eukaryota" "Radiolaria" "Spongaster" "Spongaster tetras";
    mkTaxon "Eukaryota" "Ciliophora" "Paramecium" "Paramecium aurelia";
    mkTaxon "Eukaryota" "Nematoda" "Caenorhabditis" "Caenorhabditis elegans" ].

(** [f"{i:04d}"]: the decimal digits of [i], padded on the left with
    zeros to four characters. *)
Definition decimal (i : nat) : string := NilEmpty.string_of_uint (Nat.to_uint i).

Fixpoint zeros (k : nat) : string :=
  match k with
  | O => ""
  | S k' => String "0" (zeros k')
  end.

Definition format_04d (i : nat) : string :=
  zeros (4 - String.length (decimal i)) ++ decimal i.

(** Reading a field written by [format_04d] back. *)
Definition parse_04d (field : string) : option nat :=
  option_map Nat.of_uint (NilEmpty.uint_of_string field).

(** [f"seq_{sample.sample_id}_{i:04d}"] *)
Definition make_sequence_id (s : Sample) (i : nat) : string :=
  "seq_" ++ sample_id s ++ "_" ++ format_04d i.

(** The row built by the keyword arguments of [create], from the taxon
    chosen and the four variates drawn while the arguments are evaluated
    (left to right); the columns not named take the defaults of the
    model. *)
Definition simulated (s : Sample) (i : nat) (t : taxon)
           (u_level score : Q) (reads : Z) (u_novel : Q) : TaxonomicAssignment :=
  {| sample := pk s;
     sequence_id := make_sequence_id s i;
     sequence_data := "ATCGATCGATCGATCG...";
     kingdom := t_kingdom t;
     phylum := Some (t_phylum t);
     class_name := None;
     order := None;
     family := None;
     genus := Some (t_genus t);
     species := Some (t_species t);
     database_source := "SSU_eukaryote_rRNA";
     confidence_level := if negb (Qle_bool u_level (3 # 10)) then high else medium;
     confidence_score := score;
     identity_percent := None;
     coverage_percent := None;
     e_value := None;
     best_match_accession := None;
     is_novel_taxon := negb (Qle_bool (1 # 10) u_novel);
     novel_cluster_id := None;
     read_count := reads;
     relative_abundance := None |}.

(** One iteration of the loop: draw, then insert. *)
Definition simulate_one (s : Sample) (i : nat) : M TaxonomicAssignment :=
  (t <- choice sample_taxa (mkTaxon "" "" "" "") ;;
   u_level <- random ;;
   score <- uniform (7 # 10) (98 # 100) ;;
   reads <- randint 1 50 ;;
   u_novel <- random ;;
   create (simulated s i t u_level score reads u_novel))%task.

(** The row of the iteration with index [i] whose five draws are the
    variates [v p], ..., [v (4 + p)]. *)
Definition drawn_row (s : Sample) (v : nat -> Q) (i p : nat) : TaxonomicAssignment :=
  simulated s i
    (nth (Z.to_nat (Qfloor (v p * inject_Z (Z.of_nat (length sample_taxa)))))
         sample_taxa (mkTaxon "" "" "" ""))
    (v (1 + p)%nat)
    ((7 # 10) + ((98 # 100) - (7 # 10)) * v (2 + p)%nat)%Q
    (1 + Qfloor (v (3 + p)%nat * inject_Z (50 - 1 + 1)))
    (v (4 + p)%nat).

(** The rows of [k] successive iterations. *)
Fixpoint drawn_rows (s : Sample) (v : nat -> Q) (i p k : nat) : list TaxonomicAssignment :=
  match k with
  | O => []
  | S k' => drawn_row s v i p :: drawn_rows s v (S i) (5 + p) k'
  end.

(** [for i in range(n): ...; assignments_created += 1], entered at
    index [i] with [n] iterations left. *)
Fixpoint simulate_loop (s : Sample) (i n : nat) (assignments_created : Z) : M Z :=
  match n with
  | O => ret assignments_created
  | S n' =>
      (simulate_one s i ;;
       simulate_loop s (S i) n' (assignments_created + 1))%task
  end.

(** The loop invariant on the table: the rows of the sample it holds all
    come from iterations before [i]. *)
Definition earlier (s : Sample) (i : nat) (rows : list TaxonomicAssignment) : Prop :=
  forall a, In a rows -> sample a = pk s ->
            exists j, (j < i)%nat /\ sequence_id a = make_sequence_id s j.

(** The value [random.randint(50, 200)] takes in the world [w]. *)
Definition iterations (w : World) : Z :=
  50 + Qfloor (variates (rng w) (cursor (rng w)) * inject_Z (200 - 50 + 1)).

(** [process_sequence_file], the body of the [try]. *)
Definition process_body (sample_pk : Z) (file_path : string) : M task_result :=
  (s <- get_sample sample_pk ;;
   n <- randint 50 200 ;;
   assignments_created <- simulate_loop s 0 (Z.to_nat n) 0 ;;
   delay (CalculateBiodiversityMetrics sample_pk) ;;
   ret (FileProcessed sample_pk assignments_created file_path))%task.

Definition process_sequence_file (sample_pk : Z) (file_path : string) : M task_result :=
  try_except (process_body sample_pk file_path) (on_error sample_pk).

End Tasks.

(** ** The column [calculation_date] *)

Module Dated.
Import Tasks.

(** [calculation_date = models.DateTimeField(auto_now=True)]: every save
    of a metrics record writes the time of the save to this column.  The
    dates are kept beside the world, one per sample with a record. *)
Definition dates : Type := list (Z * Z).

(** The save of the record of sample [s] at time [now]. *)
Fixpoint touch (s now : Z) (d : dates) : dates :=
  match d with
  | [] => [(s, now)]
  | (s', t) :: rest =>
      if s' =? s then (s', now) :: rest else (s', t) :: touch s now rest
  end.

Definition calculation_date (s : Z) (d : dates) : option Z :=
  option_map snd (find (fun row => fst row =? s) d).

(** The task returns its success dictionary right after
    [update_or_create], and only then. *)
Definition saved (r : pyresult task_result) : bool :=
  match r with
  | Ok (MetricsDone _ _ _ _ _) => true
  | _ => false
  end.

(** [calculate_biodiversity_metrics] run at time [now]. *)
Definition calculate_at (now sample_pk : Z) (st : World * dates)
  : pyresult task_result * (World * dates) :=
  let run := calculate_biodiversity_metrics sample_pk (fst st) in
  (fst run,
   (snd run, if saved (fst run) then touch sample_pk now (snd st) else snd st)).

End Dated.

(** ** The specification's wording, for comparison with the code *)

Module Spec.

(** "[assigned_sequences] counts assignments with
    [confidence_level != uncertain]". *)
Definition assigned_not_uncertain (assignments : list TaxonomicAssignment) : Z :=
  Z.of_nat (length (filter (fun a => negb (confidence_eqb (confidence_level a) uncertain))
                           assignments)).

(** "species name if present, else [{genus}_sp], else [Unknown]". *)
Definition species_level_key (a : TaxonomicAssignment) : string :=
  match species a, genus a with
  | Some s, _ => s
  | None, Some g => g ++ "_sp"
  | None, None => "Unknown"
  end.

(** The hit statistics the classifier and the detector read. *)
Record MatchResult : Type := mkMatch {
  m_identity_percent : Q;
  m_coverage_percent : Q
}.

(** "[>= 0.90] high; [[0.70, 0.90)] medium; [[0.50, 0.70)] low;
    [< 0.50] uncertain". *)
Definition level_of_score (score : Q) : confidence :=
  if Qle_bool (90 # 100) score then high
  else if Qle_bool (70 # 100) score then medium
  else if Qle_bool (50 # 100) score then low
  else uncertain.

(** "[score = (identity_percent/100) * min(1, coverage_percent/70)]",
    and [(uncertain, 0.0)] without a match. *)
Definition classify (best_match : option MatchResult) : confidence * Q :=
  match best_match with
  | None => (uncertain, 0%Q)
  | Some m =>
      let score := (m_identity_percent m / 100
                    * Qmin 1 (m_coverage_percent m / 70))%Q in
      (level_of_score score, score)
  end.

(** "no database produced a hit at all, or the best hit has
    [identity_percent < 80]". *)
Definition is_novel (best_match : option MatchResult) : bool :=
  match best_match with
  | None => true
  | Some m => negb (Qle_bool 80 (m_identity_percent m))
  end.

(** The match recorded on a stored assignment: its hit statistics, when
    it has any. *)
Definition best_match_of (a : TaxonomicAssignment) : option MatchResult :=
  match identity_percent a, coverage_percent a with
  | Some i, Some c => Some (mkMatch i c)
  | _, _ => None
  end.

End Spec.

(** ** Closed forms of the two diversity loops *)

Module Closed.

(** The sum of the squares of the counts. *)
Definition zsquares (counts : list Z) : Z :=
  fold_right (fun c s => c * c + s) 0 counts.

(** One summand of the Shannon index, [- p ln p]. *)
Definition entropy_term (p : R) : R := (- (p * ln p))%R.

(** The Shannon sum over the proportions [c / total]. *)
Definition entropy (counts : list Z) (total : Z) : R :=
  fold_right (fun c h => (entropy_term (IZR c / IZR total) + h)%R) 0%R counts.

(** The number of groups holding at least one read. *)
Definition positive_groups (d : list (string * Z)) : nat :=
  length (filter (fun c => c >? 0) (Metrics.values d)).

End Closed.

(** ** Concrete inputs *)

Module Fixtures.

(** An assignment of one read with neither species nor genus, of
    uncertain confidence. *)
Definition unplaced : TaxonomicAssignment :=
  {| sample := 1;
     sequence_id := "seq_S1_0000";
     sequence_data := "ATCG";
     kingdom := "Eukaryota";
     phylum := None; class_name := None; order := None; family := None;
     genus := None; species := None;
     database_source := "nt_euk";
     confidence_level := uncertain;
     confidence_score := 0%Q;
     identity_percent := None; coverage_percent := None; e_value := None;
     best_match_accession := None;
     is_novel_taxon := true;
     novel_cluster_id := None;
     read_count := 1;
     relative_abundance := None |}.

(** The assignment of the sequence [seq] to the species [name], with
    [reads] reads. *)
Definition of_species (seq name : string) (reads : Z) : TaxonomicAssignment :=
  {| sample := 1;
     sequence_id := seq;
     sequence_data := "ATCG";
     kingdom := "Eukaryota";
     phylum := Some "Cnidaria"; class_name := None; order := None; family := None;
     genus := None; species := Some name;
     database_source := "SSU_eukaryote_rRNA";
     confidence_level := high;
     confidence_score := (95 # 100)%Q;
     identity_percent := Some 95%Q; coverage_percent := Some 90%Q;
     e_value := Some 0%Q;
     best_match_accession := None;
     is_novel_taxon := false;
     novel_cluster_id := None;
     read_count := reads;
     relative_abundance := None |}.

(** Scenario 3 of the specification: species counts [{A: 1, B: 1, C: 2}]. *)
Definition scenario3 : list TaxonomicAssignment :=
  [of_species "r1" "A" 1; of_species "r2" "B" 1;
   of_species "r3" "C" 1; of_species "r4" "C" 1].

(** Scenario 4: a single species with 10 reads. *)
Definition scenario4 : list TaxonomicAssignment := [of_species "r1" "A" 10].

(** A database holding one sample and nothing else, with a generator
    that yields the constant [u]. *)
Definition constant (u : Q) : Random := {| variates := fun _ => u; cursor := 0 |}.

Definition one_sample : Database :=
  {| samples := [mkSample 1 "S1"];
     taxonomic_assignments := [];
     biodiversity_metrics := [];
     queue := [] |}.

Definition fresh_world : World := {| db := one_sample; rng := constant (1 # 2) |}.

(** The same database after one run of [process_sequence_file]. *)
Definition processed : Database :=
  db (snd (Tasks.process_sequence_file 1 "/temp/S1.fastq" fresh_world)).

End Fixtures.

(** ** models.py, the methods of [TaxonomicAssignment] *)

Module Models.

(** [x or y] on two nullable strings. *)
Definition or_else (x y : option string) : option string :=
  match x with
  | Some s => if String.eqb s "" then y else x
  | None => y
  end.

(** A level that is null or the empty string. *)
Definition blank (x : option string) : Prop := x = None \/ x = Some "".

(** [__str__]:
    [f"{self.sequence_id} - {self.species or self.genus or self.family or 'Unknown'}"] *)
Definition label (a : TaxonomicAssignment) : string :=
  Metrics.or_opt (or_else (or_else (species a) (genus a)) (family a)) "Unknown".

Definition str (a : TaxonomicAssignment) : string :=
  sequence_id a ++ " - " ++ label a.

(** [sep.join(parts)] *)
Fixpoint join (sep : string) (parts : list string) : string :=
  match parts with
  | [] => ""
  | [part] => part
  | part :: rest => part ++ sep ++ join sep rest
  end.

(** [[level for level in taxonomy_levels if level]] *)
Fixpoint named (levels : list (option string)) : list string :=
  match levels with
  | [] => []
  | Some s :: rest => if String.eqb s "" then named rest else s :: named rest
  | None :: rest => named rest
  end.

Definition taxonomy_levels (a : TaxonomicAssignment) : list (option string) :=
  [Some (kingdom a); phylum a; class_name a; order a; family a; genus a; species a].

(** The property [full_taxonomy]. *)
Definition full_taxonomy (a : TaxonomicAssignment) : string :=
  join " > " (named (taxonomy_levels a)).

End Models.

(** ** Reading the tables *)

Module Query.

(** [species_counts.keys()] *)
Definition keys (d : list (string * Z)) : list string := map fst d.

(** The distinct species keys of a set of assignments. *)
Definition distinct_keys (assignments : list TaxonomicAssignment) : list string :=
  nodup string_dec (map Metrics.species_key assignments).

(** The number of species groups with exactly [n] reads, said without
    the dictionary: the distinct species keys whose assignments have read
    counts summing to [n]. *)
Definition groups_of_size (n : Z) (assignments : list TaxonomicAssignment) : Z :=
  Z.of_nat (length (filter (fun k => Metrics.reads_of_key k assignments =? n)
                           (distinct_keys assignments))).

(** [sample.biodiversity_metrics], when the sample has a record. *)
Definition metrics_of (sample_pk : Z) (d : Database) : option BiodiversityMetrics :=
  option_map snd (find (fun row => fst row =? sample_pk) (biodiversity_metrics d)).

(** The columns of [unique_together]. *)
Definition unique_key (a : TaxonomicAssignment) : Z * string :=
  (sample a, sequence_id a).

End Query.

(** ** models.py and tasks.py, the analysis pipeline *)

Module Pipeline.
Import Orm PyRandom.

Inductive status : Type :=
| pending
| running
| completed
| failed
| cancelled.

(** [class AnalysisPipeline], the columns [run_analysis_pipeline] reads
    or writes.  [pipeline_samples] is the [ManyToManyField] (the primary
    keys of its samples), a datetime is a number of seconds, and
    [error_message] holds the exception whose text was recorded, if any. *)
Record AnalysisPipeline : Type := mkPipeline {
  pipeline_pk : Z;
  pipeline_samples : list Z;
  pipeline_status : status;
  started_at : option Q;
  completed_at : option Q;
  total_runtime_minutes : option Q;
  error_message : option pyexn;
  total_sequences_processed : option Z;
  sequences_assigned : option Z;
  novel_taxa_discovered : option Z
}.

(** A task queued with [.delay(...)] by the pipeline. *)
Inductive job : Type :=
| ProcessSequenceFile (sample_pk : Z) (file_path : string)
| SendPipelineCompletionEmail (pipeline : Z).

(** The state of the pipeline task: the world of the other tasks, the
    pipeline table, the queue, and the clock read by [datetime.now()],
    abstracted like the generator as the sequence of its readings. *)
Record Site : Type := mkSite {
  world : World;
  pipelines : list AnalysisPipeline;
  jobs : list job;
  readings : nat -> Q;
  tick : nat
}.

(** What the task returns: one of its result dictionaries. *)
Inductive pipeline_result : Type :=
| PipelineDone (pipeline total_sequences sequences_assigned novel_taxa : Z)
| PipelineNotFound (pipeline : Z)
| PipelineError (e : pyexn).

Definition MS (A : Type) : Type := Site -> pyresult A * Site.

Definition sret {A : Type} (a : A) : MS A := fun st => (Ok a, st).

Definition sbind {A B : Type} (m : MS A) (k : A -> MS B) : MS B :=
  fun st =>
    match m st with
    | (Ok a, st') => k a st'
    | (Raise e, st') => (Raise e, st')
    end.

Definition stry {A : Type} (body : MS A) (handler : pyexn -> MS A) : MS A :=
  fun st =>
    match body st with
    | (Ok a, st') => (Ok a, st')
    | (Raise e, st') => handler e st'
    end.

Declare Scope site_scope.
Delimit Scope site_scope with site.
Notation "x <- m ;; k" := (sbind m (fun x => k))
  (at level 61, m at next level, right associativity) : site_scope.
Notation "m ;; k" := (sbind m (fun _ => k))
  (at level 61, right associativity) : site_scope.

(** Code of the other tasks' world, run inside the site. *)
Definition in_world {A : Type} (m : M A) : MS A :=
  fun st =>
    let (r, w') := m (world st) in
    (r, {| world := w'; pipelines := pipelines st; jobs := jobs st;
           readings := readings st; tick := tick st |}).

(** [datetime.now()] *)
Definition now : MS Q :=
  fun st =>
    (Ok (readings st (tick st)),
     {| world := world st; pipelines := pipelines st; jobs := jobs st;
        readings := readings st; tick := S (tick st) |}).

(** [AnalysisPipeline.objects.get(id=pipeline)] *)
Definition get_pipeline (pipeline : Z) : MS AnalysisPipeline :=
  fun st =>
    match find (fun p => pipeline_pk p =? pipeline) (pipelines st) with
    | Some p => (Ok p, st)
    | None => (Raise DoesNotExist, st)
    end.

(** [pipeline.save()]: the row with its primary key is rewritten, or
    inserted when there is none. *)
Fixpoint save_row (p : AnalysisPipeline) (rows : list AnalysisPipeline)
  : list AnalysisPipeline :=
  match rows with
  | [] => [p]
  | q :: rest =>
      if pipeline_pk q =? pipeline_pk p then p :: rest else q :: save_row p rest
  end.

Definition save (p : AnalysisPipeline) : MS unit :=
  fun st =>
    (Ok tt,
     {| world := world st; pipelines := save_row p (pipelines st); jobs := jobs st;
        readings := readings st; tick := tick st |}).

(** [task.delay(...)] *)
Definition enqueue (j : job) : MS unit :=
  fun st =>
    (Ok tt,
     {| world := world st; pipelines := pipelines st; jobs := jobs st ++ [j];
        readings := readings st; tick := tick st |}).

(** [pipeline.samples.all()]: the samples the pipeline is related to. *)
Definition samples_of (p : AnalysisPipeline) : MS (list Sample) :=
  fun st =>
    (Ok (filter (fun s => existsb (Z.eqb (pk s)) (pipeline_samples p))
                (samples (db (world st)))),
     st).

(** [f"/temp/{sample.sample_id}.fastq"] *)
Definition fastq_path (s : Sample) : string :=
  "/temp/" ++ sample_id s ++ ".fastq".

(** The job queued for a sample. *)
Definition job_of (s : Sample) : job := ProcessSequenceFile (pk s) (fastq_path s).

(** The loop over the samples, on the three counters; [time.sleep(2)]
    only delays. *)
Fixpoint samples_loop (ss : list Sample) (total assigned novel : Z)
  : MS (Z * Z * Z) :=
  match ss with
  | [] => sret (total, assigned, novel)
  | s :: rest =>
      (enqueue (job_of s) ;;
       a <- in_world (randint 1000 5000) ;;
       b <- in_world (randint 600 3000) ;;
       c <- in_world (randint 5 50) ;;
       samples_loop rest (total + a) (assigned + b) (novel + c))%site
  end.

Definition set_running (t : Q) (p : AnalysisPipeline) : AnalysisPipeline :=
  {| pipeline_pk := pipeline_pk p;
     pipeline_samples := pipeline_samples p;
     pipeline_status := running;
     started_at := Some t;
     completed_at := completed_at p;
     total_runtime_minutes := total_runtime_minutes p;
     error_message := error_message p;
     total_sequences_processed := total_sequences_processed p;
     sequences_assigned := sequences_assigned p;
     novel_taxa_discovered := novel_taxa_discovered p |}.

(** [(completed_at - started_at).total_seconds() / 60] and the other
    columns written at the end; [started] is the reading stored at the
    start. *)
Definition set_completed (started t : Q) (total assigned novel : Z)
           (p : AnalysisPipeline) : AnalysisPipeline :=
  {| pipeline_pk := pipeline_pk p;
     pipeline_samples := pipeline_samples p;
     pipeline_status := completed;
     started_at := started_at p;
     completed_at := Some t;
     total_runtime_minutes := Some ((t - started) / 60)%Q;
     error_message := error_message p;
     total_sequences_processed := Some total;
     sequences_assigned := Some assigned;
     novel_taxa_discovered := Some novel |}.

Definition set_failed (e : pyexn) (p : AnalysisPipeline) : AnalysisPipeline :=
  {| pipeline_pk := pipeline_pk p;
     pipeline_samples := pipeline_samples p;
     pipeline_status := failed;
     started_at := started_at p;
     completed_at := completed_at p;
     total_runtime_minutes := total_runtime_minutes p;
     error_message := Some e;
     total_sequences_processed := total_sequences_processed p;
     sequences_assigned := sequences_assigned p;
     novel_taxa_discovered := novel_taxa_discovered p |}.

(** [run_analysis_pipeline], the body of the [try]. *)
Definition pipeline_body (pipeline : Z) : MS pipeline_result :=
  (p <- get_pipeline pipeline ;;
   t0 <- now ;;
   let p := set_running t0 p in
   save p ;;
   ss <- samples_of p ;;
   counters <- samples_loop ss 0 0 0 ;;
   let '(total, assigned, novel) := counters in
   t1 <- now ;;
   let p := set_completed t0 t1 total assigned novel p in
   save p ;;
   enqueue (SendPipelineCompletionEmail pipeline) ;;
   sret (PipelineDone pipeline total assigned novel))%site.

(** The two [except] clauses: the second marks the pipeline failed when
    it can still be read. *)
Definition pipeline_handler (pipeline : Z) (e : pyexn) : MS pipeline_result :=
  match e with
  | DoesNotExist => sret (PipelineNotFound pipeline)
  | _ =>
      (stry (p <- get_pipeline pipeline ;; save (set_failed e p))
            (fun _ => sret tt) ;;
       sret (PipelineError e))%site
  end.

Definition run_analysis_pipeline (pipeline : Z) : MS pipeline_result :=
  stry (pipeline_body pipeline) (pipeline_handler pipeline).

(** The row of a pipeline, when it has one. *)
Definition pipeline_of (pipeline : Z) (st : Site) : option AnalysisPipeline :=
  find (fun p => pipeline_pk p =? pipeline) (pipelines st).

End Pipeline.

(** ** Comparing results *)

Module Doubles.
Import PrimFloat.
Local Open Scope float_scope.
Local Open Scope Z_scope.

(** The double of a Python [int]; the conversion is exact below [2^53]. *)
Definition of_int (z : Z) : float :=
  if z <? 0 then opp (of_uint63 (Uint63.of_Z (- z)))
  else of_uint63 (Uint63.of_Z z).

(** [a / b] on integers that convert exactly. *)
Definition truediv (a b : Z) : float := (of_int a / of_int b)%float.

(** [(reads / total_reads * 100) if total_reads > 0 else 0] *)
Definition percentage (reads total : Z) : float :=
  if total >? 0 then (truediv reads total * 100)%float else 0%float.

(** [simpson_diversity += p * p] for each [count > 0]. *)
Fixpoint simpson_loop (counts : list Z) (total : Z) (acc : float) : float :=
  match counts with
  | [] => acc
  | count :: rest =>
      if count >? 0 then
        let p := truediv count total in
        simpson_loop rest total (acc + p * p)%float
      else simpson_loop rest total acc
  end.

(** [simpson_diversity = 1 - simpson_diversity] *)
Definition simpson (counts : list Z) (total : Z) : float :=
  (1 - simpson_loop counts total 0)%float.

(** [random.uniform(a, b)] is [a + (b - a) * random()]. *)
Definition uniform (a b u : float) : float := (a + (b - a) * u)%float.

(** The bounds of [random.uniform(0.7, 0.98)]. *)
Definition score_low : float := Eval cbv in truediv 7 10.
Definition score_high : float := Eval cbv in truediv 98 100.

(** The largest value of [random.random()], [1 - 2^-53]. *)
Definition largest_random : float := truediv (2 ^ 53 - 1) (2 ^ 53).

(** The rational number a finite double stands for. *)
Definition value (x : float) : option Q :=
  match FloatOps.Prim2SF x with
  | SpecFloat.S754_zero _ => Some 0%Q
  | SpecFloat.S754_finite s m e =>
      let q := (inject_Z (Z.pos m)
                * (if e <? 0 then / inject_Z (2 ^ (- e)) else inject_Z (2 ^ e)))%Q in
      Some (if s then - q else q)%Q
  | _ => None
  end.

End Doubles.

Module Compare.

(** Two metrics records with the same values.  The columns computed from
    integers by one division (Chao1, the assignment rate, the four
    percentages) and the integer columns are the same expressions, hence
    the same doubles; the two sums, Shannon and Simpson, are the same
    numbers in exact arithmetic. *)
Definition same_metrics (m m' : BiodiversityMetrics) : Prop :=
  shannon_diversity m = shannon_diversity m'
  /\ (simpson_diversity m == simpson_diversity m')%Q
  /\ chao1_richness m = chao1_richness m'
  /\ observed_otus m = observed_otus m'
  /\ total_sequences m = total_sequences m'
  /\ assigned_sequences m = assigned_sequences m'
  /\ novel_sequences m = novel_sequences m'
  /\ assignment_rate m = assignment_rate m'
  /\ protist_percentage m = protist_percentage m'
  /\ metazoan_percentage m = metazoan_percentage m'
  /\ cnidarian_percentage m = cnidarian_percentage m'
  /\ fungi_percentage m = fungi_percentage m'.

(** Two outcomes that agree: the same exception, or values related by
    [same]. *)
Definition agree {A : Type} (same : A -> A -> Prop) (r r' : pyresult A) : Prop :=
  match r, r' with
  | Ok a, Ok a' => same a a'
  | Raise e, Raise e' => e = e'
  | _, _ => False
  end.

End Compare.

(** ** Further concrete inputs *)

Module Cases.
Import Fixtures.

(** Two species whose read counts cancel: 1 and -1. *)
Definition cancelling : list TaxonomicAssignment :=
  [of_species "r1" "A" 1; of_species "r2" "B" (-1)].

(** Two assignments without reads. *)
Definition unread : list TaxonomicAssignment :=
  [of_species "r1" "A" 0; of_species "r2" "B" 0].

(** A site with one pending pipeline over the sample of [fresh_world]
    and a clock that reads 0, 120, 240, ... seconds. *)
Definition survey : Pipeline.AnalysisPipeline :=
  {| Pipeline.pipeline_pk := 10;
     Pipeline.pipeline_samples := [1];
     Pipeline.pipeline_status := Pipeline.pending;
     Pipeline.started_at := None;
     Pipeline.completed_at := None;
     Pipeline.total_runtime_minutes := None;
     Pipeline.error_message := None;
     Pipeline.total_sequences_processed := None;
     Pipeline.sequences_assigned := None;
     Pipeline.novel_taxa_discovered := None |}.

Definition station : Pipeline.Site :=
  {| Pipeline.world := fresh_world;
     Pipeline.pipelines := [survey];
     Pipeline.jobs := [];
     Pipeline.readings := fun n => inject_Z (120 * Z.of_nat n);
     Pipeline.tick := 0 |}.

(** The assignment of the sequence [seq], of the phylum [name], with
    [reads] reads. *)
Definition of_phylum (seq name : string) (reads : Z) : TaxonomicAssignment :=
  {| sample := 1;
     sequence_id := seq;
     sequence_data := "ATCG";
     kingdom := "Eukaryota";
     phylum := Some name; class_name := None; order := None; family := None;
     genus := None; species := None;
     database_source := "SSU_eukaryote_rRNA";
     confidence_level := high;
     confidence_score := (95 # 100)%Q;
     identity_percent := None; coverage_percent := None; e_value := None;
     best_match_accession := None;
     is_novel_taxon := false;
     novel_cluster_id := None;
     read_count := reads;
     relative_abundance := None |}.

(** Two reads of a protist and nine of a metazoan. *)
Definition two_and_nine : list TaxonomicAssignment :=
  [of_phylum "r1" "Foraminifera" 2; of_phylum "r2" "Nematoda" 9].

Definition holding (rows : list TaxonomicAssignment) : World :=
  {| db := {| samples := [mkSample 1 "S1"];
              taxonomic_assignments := rows;
              biodiversity_metrics := [];
              queue := [] |};
     rng := constant (1 # 2) |}.

End Cases.

(** ** Facts about the grouping loop *)

Module GroupingFacts.
Import Metrics.

Lemma group_loop_from (l : list TaxonomicAssignment) :
  forall d t,
    fold_left group_step l (d, t)
    = (fold_left add_group l d, t + zsum (map read_count l)).
Proof.
  induction l as [|a l IH]; intros d t; simpl.
  - now rewrite Z.add_0_r.
  - unfold group_step at 2. simpl. rewrite IH. unfold add_group at 2.
    f_equal. lia.
Qed.

Lemma species_counts_fold (l : list TaxonomicAssignment) :
  species_counts l = fold_left add_group l [].
Proof. unfold species_counts, group_loop. now rewrite group_loop_from. Qed.

Lemma total_reads_sum (l : list TaxonomicAssignment) :
  total_reads l = zsum (map read_count l).
Proof. unfold total_reads, group_loop. now rewrite group_loop_from. Qed.

Lemma dict_add_sum (k : string) (v : Z) (d : list (string * Z)) :
  zsum (values (dict_add k v d)) = zsum (values d) + v.
Proof.
  unfold values. induction d as [|[k' v'] d IH]; simpl; [lia|].
  destruct (String.eqb k' k); simpl; lia.
Qed.

Lemma fold_add_group_sum (l : list TaxonomicAssignment) :
  forall d, zsum (values (fold_left add_group l d))
            = zsum (values d) + zsum (map read_count l).
Proof.
  induction l as [|a l IH]; intros d; simpl; [lia|].
  rewrite IH. unfold add_group. rewrite dict_add_sum. lia.
Qed.

(** The group totals add up to [total_reads]. *)
Lemma species_counts_sum (l : list TaxonomicAssignment) :
  zsum (values (species_counts l)) = total_reads l.
Proof.
  rewrite species_counts_fold, total_reads_sum, fold_add_group_sum. reflexivity.
Qed.

(** *** The groups *)

(** How the key is formed: the species when it is set and not blank,
    otherwise the printed genus followed by ["_sp"]; never ["Unknown"] by
    default, since that string is not empty. *)
Lemma species_key_cases (a : TaxonomicAssignment) :
  (forall name, species a = Some name -> name <> "" -> species_key a = name)
  /\ (species a = None \/ species a = Some "" ->
      species_key a = (format_opt (genus a) ++ "_sp")%string).
Proof.
  unfold species_key, or_str, or_opt. split.
  - intros name -> Hne. apply String.eqb_neq in Hne. rewrite Hne, Hne. reflexivity.
  - intros [-> | ->]; simpl; destruct (genus a) as [[|c g]|]; reflexivity.
Qed.

Lemma dict_get_add (k k' : string) (v : Z) (d : list (string * Z)) :
  dict_get k (dict_add k' v d)
  = if String.eqb k' k
    then Some (match dict_get k d with Some x => x + v | None => v end)
    else dict_get k d.
Proof.
  induction d as [|[k0 v0] d IH]; simpl.
  - destruct (String.eqb k' k); reflexivity.
  - destruct (String.eqb_spec k0 k') as [->|Hne]; simpl.
    + destruct (String.eqb k' k); reflexivity.
    + rewrite IH. destruct (String.eqb_spec k0 k) as [->|Hne'].
      * apply not_eq_sym, String.eqb_neq in Hne. rewrite Hne. reflexivity.
      * reflexivity.
Qed.

Lemma fold_add_group_get (k : string) (l : list TaxonomicAssignment) :
  forall d,
    dict_get k (fold_left add_group l d)
    = match dict_get k d with
      | Some x => Some (x + reads_of_key k l)
      | None => if existsb (has_key k) l then Some (reads_of_key k l) else None
      end.
Proof.
  unfold reads_of_key.
  induction l as [|a l IH]; intros d; simpl.
  - destruct (dict_get k d); [f_equal; lia|reflexivity].
  - rewrite IH. unfold add_group. rewrite dict_get_add.
    change (String.eqb (species_key a) k) with (has_key k a).
    destruct (has_key k a); simpl.
    + destruct (dict_get k d); f_equal; lia.
    + reflexivity.
Qed.

(** Each group holds the sum of the reads of the assignments with its
    key, and only keys of assignments have a group. *)
Lemma species_counts_get (k : string) (l : list TaxonomicAssignment) :
  dict_get k (species_counts l)
  = if existsb (has_key k) l then Some (reads_of_key k l) else None.
Proof. rewrite species_counts_fold, fold_add_group_get. reflexivity. Qed.

Lemma dict_add_not_nil (k : string) (v : Z) (d : list (string * Z)) :
  dict_add k v d <> [].
Proof.
  destruct d as [|[k' v'] d]; simpl; [discriminate|].
  destruct (String.eqb k' k); discriminate.
Qed.

Lemma dict_add_length (k : string) (v : Z) (d : list (string * Z)) :
  (length d <= length (dict_add k v d))%nat.
Proof.
  induction d as [|[k' v'] d IH]; simpl; [lia|].
  destruct (String.eqb k' k); simpl; lia.
Qed.

Lemma fold_add_group_length (l : list TaxonomicAssignment) :
  forall d, (length d <= length (fold_left add_group l d))%nat.
Proof.
  induction l as [|a l IH]; intros d; simpl; [lia|].
  etransitivity; [|apply IH]. apply dict_add_length.
Qed.

Lemma species_counts_not_nil (l : list TaxonomicAssignment) :
  l <> [] -> species_counts l <> [].
Proof.
  destruct l as [|a l]; [congruence|]. intros _.
  rewrite species_counts_fold. simpl.
  pose proof (fold_add_group_length l (add_group [] a)) as H.
  intros E. rewrite E in H. simpl in H. lia.
Qed.

Lemma dict_add_lower (b : Z) (k : string) (v : Z) (d : list (string * Z)) :
  0 <= b -> b <= v -> Forall (fun c => b <= c) (values d) ->
  Forall (fun c => b <= c) (values (dict_add k v d)).
Proof.
  intros Hb Hv. induction d as [|[k' v'] d IH]; simpl; intros H.
  - constructor; [assumption|constructor].
  - inversion H as [|? ? H1 H2]; subst. simpl in H1.
    destruct (String.eqb k' k); simpl; constructor; simpl; auto; lia.
Qed.

Lemma fold_add_group_lower (b : Z) (l : list TaxonomicAssignment) :
  0 <= b -> Forall (fun a => b <= read_count a) l ->
  forall d, Forall (fun c => b <= c) (values d) ->
            Forall (fun c => b <= c) (values (fold_left add_group l d)).
Proof.
  intros Hb Hl. induction Hl as [|a l Ha Hl IH]; intros d Hd; simpl; [assumption|].
  apply IH. apply dict_add_lower; assumption.
Qed.

(** When every read count is at least [b >= 0], so is every group total. *)
Lemma species_counts_lower (b : Z) (l : list TaxonomicAssignment) :
  0 <= b -> Forall (fun a => b <= read_count a) l ->
  Forall (fun c => b <= c) (values (species_counts l)).
Proof.
  intros Hb Hl. rewrite species_counts_fold.
  apply fold_add_group_lower; [assumption|assumption|constructor].
Qed.

Lemma zsum_lower (l : list Z) :
  Forall (fun c => 1 <= c) l -> Z.of_nat (length l) <= zsum l.
Proof.
  induction 1 as [|c l Hc Hl IH]; simpl length; simpl zsum; [lia|].
  rewrite Nat2Z.inj_succ. lia.
Qed.

Lemma total_reads_pos (l : list TaxonomicAssignment) :
  l <> [] -> Forall (fun a => 1 <= read_count a) l -> 0 < total_reads l.
Proof.
  intros Hne Hl. rewrite total_reads_sum.
  assert (Forall (fun c => 1 <= c) (map read_count l)) as H.
  { rewrite Forall_map. exact Hl. }
  apply zsum_lower in H. rewrite length_map in H.
  destruct l; [congruence|]. simpl length in H. lia.
Qed.

End GroupingFacts.

(** ** Facts about the metrics *)

Module MetricsFacts.
Import Metrics Closed GroupingFacts Fixtures.

Lemma count_eq_nonneg (n : Z) (d : list (string * Z)) : 0 <= count_eq n d.
Proof. unfold count_eq. lia. Qed.

Lemma frac_nonneg (a b : Z) : 0 <= a -> 0 < b -> (0 <= inject_Z a / inject_Z b)%Q.
Proof.
  intros Ha Hb. apply Qle_shift_div_l.
  - change 0%Q with (inject_Z 0). rewrite <- Zlt_Qlt. exact Hb.
  - rewrite Qmult_0_l. change 0%Q with (inject_Z 0). rewrite <- Zle_Qle. exact Ha.
Qed.

Lemma frac_le_1 (a b : Z) : a <= b -> 0 < b -> (inject_Z a / inject_Z b <= 1)%Q.
Proof.
  intros Ha Hb. apply Qle_shift_div_r.
  - change 0%Q with (inject_Z 0). rewrite <- Zlt_Qlt. exact Hb.
  - rewrite Qmult_1_l. rewrite <- Zle_Qle. exact Ha.
Qed.

(** Whatever [compute] returns carries the values of the component
    functions. *)
Lemma compute_fields (l : list TaxonomicAssignment) (m : BiodiversityMetrics) :
  compute l = Ok m ->
  shannon (species_counts l) (total_reads l) = Ok (shannon_diversity m)
  /\ simpson (species_counts l) (total_reads l) = Ok (simpson_diversity m)
  /\ chao1_richness m = chao1 (species_counts l)
  /\ observed_otus m = otus (species_counts l)
  /\ total_sequences m = total_reads l
  /\ assigned_sequences m = count_all l
  /\ novel_sequences m = count_novel l
  /\ assignment_rate m = rate (count_all l) (total_reads l)
  /\ protist_percentage m = percentage (group_reads protist_phylums l) (total_reads l)
  /\ metazoan_percentage m = percentage (group_reads metazoan_phylums l) (total_reads l)
  /\ cnidarian_percentage m = percentage (group_reads cnidarian_phylums l) (total_reads l)
  /\ fungi_percentage m = percentage (group_reads fungi_phylums l) (total_reads l).
Proof.
  unfold compute.
  destruct (shannon (species_counts l) (total_reads l)) as [h|e]; simpl; [|discriminate].
  destruct (simpson (species_counts l) (total_reads l)) as [d|e]; simpl; [|discriminate].
  intros E. injection E as <-. simpl. repeat split; reflexivity.
Qed.

(** The Chao1 value in terms of the two counters of the code. *)
Lemma chao1_by_counters (d : list (string * Z)) :
  (inject_Z (otus d) <= chao1 d)%Q
  /\ (0 < doubletons d ->
      (chao1 d == inject_Z (otus d)
                  + inject_Z (singletons d) * inject_Z (singletons d)
                    / (2 * inject_Z (doubletons d)))%Q)
  /\ (doubletons d = 0 -> chao1 d = inject_Z (otus d)).
Proof.
  unfold chao1. repeat split.
  - destruct (doubletons d >? 0) eqn:E; [|apply Qle_refl].
    apply Z.gtb_lt in E.
    rewrite <- (Qplus_0_r (inject_Z (otus d))) at 1.
    apply Qplus_le_r. apply frac_nonneg; [|lia].
    apply Z.square_nonneg.
  - intros H. apply Z.gtb_lt in H. rewrite H.
    rewrite !inject_Z_mult. reflexivity.
  - intros H. rewrite H. reflexivity.
Qed.

(** *** Major-group percentages *)

Lemma group_reads_cons (names : list string) (a : TaxonomicAssignment)
      (l : list TaxonomicAssignment) :
  group_reads names (a :: l)
  = (if phylum_in names a then read_count a else 0) + group_reads names l.
Proof.
  unfold group_reads. simpl. destruct (phylum_in names a); simpl; lia.
Qed.

Lemma group_reads_bounds (names : list string) (l : list TaxonomicAssignment) :
  Forall (fun a => 0 <= read_count a) l ->
  0 <= group_reads names l <= zsum (map read_count l).
Proof.
  induction 1 as [|a l Ha Hl IH].
  - unfold group_reads. simpl. lia.
  - rewrite group_reads_cons. simpl. destruct (phylum_in names a); lia.
Qed.

(** The four phylum lists are pairwise disjoint: a phylum is in at most
    one of them. *)
Lemma phylum_lists_disjoint (a : TaxonomicAssignment) :
  Z.b2z (phylum_in protist_phylums a) + Z.b2z (phylum_in metazoan_phylums a)
  + Z.b2z (phylum_in cnidarian_phylums a) + Z.b2z (phylum_in fungi_phylums a) <= 1.
Proof.
  unfold phylum_in. destruct (phylum a) as [p|]; [|simpl; lia].
  unfold protist_phylums, metazoan_phylums, cnidarian_phylums, fungi_phylums.
  cbn [existsb].
  repeat match goal with
         | |- context [String.eqb p ?s] =>
             destruct (String.eqb_spec p s) as [->|_];
             [vm_compute; intros E; discriminate E|]
         end.
  simpl. lia.
Qed.

Lemma group_reads_total (l : list TaxonomicAssignment) :
  Forall (fun a => 0 <= read_count a) l ->
  group_reads protist_phylums l + group_reads metazoan_phylums l
  + group_reads cnidarian_phylums l + group_reads fungi_phylums l
  <= zsum (map read_count l).
Proof.
  induction 1 as [|a l Ha Hl IH].
  - unfold group_reads. simpl. lia.
  - rewrite !group_reads_cons. simpl.
    pose proof (phylum_lists_disjoint a) as D.
    destruct (phylum_in protist_phylums a), (phylum_in metazoan_phylums a),
      (phylum_in cnidarian_phylums a), (phylum_in fungi_phylums a);
      simpl in D; lia.
Qed.

Lemma percentage_pos (r t : Z) :
  0 < t -> (percentage r t == inject_Z r / inject_Z t * 100)%Q.
Proof.
  intros H. unfold percentage. apply Z.gtb_lt in H. rewrite H. reflexivity.
Qed.

(** C10, as the specification words it, fails of the stored values.  On
    two reads of a protist and nine of a metazoan the four percentages the
    code computes are the doubles 18.181818181818183, 81.81818181818183,
    0 and 0: their sum exceeds 100, whether it is taken exactly or as a
    double. *)
Lemma stored_percentages_exceed_100 :
  let l := Cases.two_and_nine in
  let pct names := Doubles.percentage (group_reads names l) (total_reads l) in
  l <> [] /\ Forall (fun a => 1 <= read_count a) l
  /\ PrimFloat.ltb (Doubles.of_int 100)
                   (PrimFloat.add
                      (PrimFloat.add
                         (PrimFloat.add (pct protist_phylums) (pct metazoan_phylums))
                         (pct cnidarian_phylums))
                      (pct fungi_phylums)) = true
  /\ match Doubles.value (pct protist_phylums), Doubles.value (pct metazoan_phylums),
           Doubles.value (pct cnidarian_phylums), Doubles.value (pct fungi_phylums) with
     | Some p, Some m, Some c, Some f => (100 < p + m + c + f)%Q
     | _, _, _, _ => False
     end.
Proof.
  split; [discriminate|]. split; [repeat constructor; simpl; lia|].
  split; vm_compute; reflexivity.
Qed.

(** C10, amended.  For a non-empty assignment set whose read counts are
    all at least 1, each of the four major-group percentages lies in
    [[0, 100]], and these are the values [compute] stores; the four phylum
    lists being pairwise disjoint, the read totals of the four groups, each
    between 0 and [total_reads], sum to at most [total_reads]. *)
Theorem group_percentages_bounded (l : list TaxonomicAssignment) :
  l <> [] -> Forall (fun a => 1 <= read_count a) l ->
  let pct names := percentage (group_reads names l) (total_reads l) in
  (0 <= pct protist_phylums <= 100)%Q
  /\ (0 <= pct metazoan_phylums <= 100)%Q
  /\ (0 <= pct cnidarian_phylums <= 100)%Q
  /\ (0 <= pct fungi_phylums <= 100)%Q
  /\ (forall names, 0 <= group_reads names l <= total_reads l)
  /\ group_reads protist_phylums l + group_reads metazoan_phylums l
     + group_reads cnidarian_phylums l + group_reads fungi_phylums l
     <= total_reads l
  /\ (forall m, compute l = Ok m ->
        protist_percentage m = pct protist_phylums
        /\ metazoan_percentage m = pct metazoan_phylums
        /\ cnidarian_percentage m = pct cnidarian_phylums
        /\ fungi_percentage m = pct fungi_phylums).
Proof.
  intros Hne Hl pct.
  pose proof (total_reads_pos l Hne Hl) as Ht.
  assert (Forall (fun a => 0 <= read_count a) l) as Hl0.
  { eapply Forall_impl; [|exact Hl]. simpl. intros; lia. }
  pose proof (group_reads_total l Hl0) as Hsum.
  rewrite <- total_reads_sum in Hsum.
  assert (forall names, 0 <= group_reads names l <= total_reads l) as Hb.
  { intros names. rewrite total_reads_sum. apply group_reads_bounds, Hl0. }
  assert (forall names, (0 <= inject_Z (group_reads names l) / inject_Z (total_reads l))%Q)
    as Hlo.
  { intros names. apply frac_nonneg; [apply Hb|exact Ht]. }
  assert (forall names, (inject_Z (group_reads names l) / inject_Z (total_reads l) <= 1)%Q)
    as Hhi.
  { intros names. apply frac_le_1; [apply Hb|exact Ht]. }
  unfold pct. rewrite !(percentage_pos _ _ Ht).
  pose proof (Hlo protist_phylums). pose proof (Hlo metazoan_phylums).
  pose proof (Hlo cnidarian_phylums). pose proof (Hlo fungi_phylums).
  pose proof (Hhi protist_phylums). pose proof (Hhi metazoan_phylums).
  pose proof (Hhi cnidarian_phylums). pose proof (Hhi fungi_phylums).
  split; [split; Lqa.lra|]. split; [split; Lqa.lra|].
  split; [split; Lqa.lra|]. split; [split; Lqa.lra|].
  split; [exact Hb|]. split; [exact Hsum|].
  intros m Hm. repeat split; apply (compute_fields l m Hm).
Qed.

(** *** Simpson index *)

Lemma inject_Z_nonzero (t : Z) : t <> 0 -> ~ (inject_Z t == 0)%Q.
Proof.
  intros H. change 0%Q with (inject_Z 0). rewrite inject_Z_injective. exact H.
Qed.

Lemma simpson_loop_closed (counts : list Z) (total : Z) :
  total <> 0 -> Forall (fun c => 1 <= c) counts ->
  forall acc, exists s,
    simpson_loop counts total acc = Ok s
    /\ (s == acc + inject_Z (zsquares counts) / (inject_Z total * inject_Z total))%Q.
Proof.
  intros Ht Hc. pose proof (inject_Z_nonzero total Ht) as Hq.
  induction Hc as [|c rest Hc1 Hrest IH]; intros acc.
  - exists acc. split; [reflexivity|]. simpl. field. exact Hq.
  - simpl simpson_loop.
    assert ((c >? 0) = true) as -> by (apply Z.gtb_lt; lia).
    unfold truediv. apply Z.eqb_neq in Ht. rewrite Ht. simpl bind.
    destruct (IH (acc + inject_Z c / inject_Z total * (inject_Z c / inject_Z total))%Q)
      as [s [Hs Es]].
    exists s. split; [exact Hs|]. rewrite Es. simpl zsquares.
    rewrite inject_Z_plus, inject_Z_mult. field. exact Hq.
Qed.

Lemma zsquares_bounds (counts : list Z) :
  Forall (fun c => 1 <= c) counts ->
  Z.of_nat (length counts) <= zsquares counts <= zsum counts * zsum counts.
Proof.
  induction 1 as [|c rest Hc Hrest IH]; simpl zsquares; simpl zsum; simpl length.
  - lia.
  - pose proof (zsum_lower rest Hrest) as Hs. rewrite Nat2Z.inj_succ. nia.
Qed.

Lemma simpson_value (l : list TaxonomicAssignment) :
  l <> [] -> Forall (fun a => 1 <= read_count a) l ->
  exists s, simpson (species_counts l) (total_reads l) = Ok (1 - s)%Q
    /\ (s == inject_Z (zsquares (values (species_counts l)))
             / (inject_Z (total_reads l) * inject_Z (total_reads l)))%Q.
Proof.
  intros Hne Hl.
  pose proof (total_reads_pos l Hne Hl) as Ht.
  pose proof (species_counts_lower 1 l ltac:(lia) Hl) as Hc.
  assert (total_reads l <> 0) as Hnz by lia.
  destruct (simpson_loop_closed _ _ Hnz Hc 0%Q) as [s [Hs Es]].
  exists s. split; [unfold simpson; rewrite Hs; reflexivity|].
  rewrite Es. apply Qplus_0_l.
Qed.

(** C6.  For a non-empty assignment set whose read counts are all at
    least 1, the Simpson computation returns a value [D] with
    [0 <= D < 1], and [D] is the value [compute] stores. *)
Theorem simpson_in_unit_interval (l : list TaxonomicAssignment) :
  l <> [] -> Forall (fun a => 1 <= read_count a) l ->
  exists D, simpson (species_counts l) (total_reads l) = Ok D
    /\ (0 <= D)%Q /\ (D < 1)%Q
    /\ (forall m, compute l = Ok m -> simpson_diversity m = D).
Proof.
  intros Hne Hl.
  pose proof (total_reads_pos l Hne Hl) as Ht.
  pose proof (species_counts_lower 1 l ltac:(lia) Hl) as Hc.
  pose proof (species_counts_sum l) as Hsum.
  pose proof (species_counts_not_nil l Hne) as Hd.
  destruct (simpson_value l Hne Hl) as [s [Hs Es]].
  pose proof (zsquares_bounds _ Hc) as [Hlo Hhi]. rewrite Hsum in Hhi.
  assert (1 <= zsquares (values (species_counts l))) as Hlo1.
  { unfold values in Hlo at 1. rewrite length_map in Hlo.
    assert (length (species_counts l) <> 0%nat) as Hlen.
    { destruct (species_counts l); [congruence|discriminate]. }
    lia. }
  set (T := total_reads l) in *. set (S := zsquares (values (species_counts l))) in *.
  assert (0 < inject_Z S / (inject_Z T * inject_Z T))%Q as Hpos.
  { apply Qlt_shift_div_l.
    - rewrite <- inject_Z_mult. change 0%Q with (inject_Z 0). rewrite <- Zlt_Qlt. nia.
    - rewrite Qmult_0_l. change 0%Q with (inject_Z 0). rewrite <- Zlt_Qlt. lia. }
  assert (inject_Z S / (inject_Z T * inject_Z T) <= 1)%Q as Hle.
  { rewrite <- inject_Z_mult. apply frac_le_1; [exact Hhi | nia]. }
  exists (1 - s)%Q. split; [exact Hs|].
  split; [|split].
  - rewrite Es. Lqa.lra.
  - rewrite Es. Lqa.lra.
  - intros m Hm. destruct (compute_fields l m Hm) as [_ [H _]].
    subst T. rewrite Hs in H. congruence.
Qed.

(** *** Shannon index *)

Lemma Q2R_fraction (c t : Z) :
  t <> 0 -> Q2R (inject_Z c / inject_Z t) = (IZR c / IZR t)%R.
Proof.
  intros Ht. rewrite Q2R_div by (apply inject_Z_nonzero; exact Ht).
  unfold Q2R. simpl. rewrite Rinv_1, !Rmult_1_r. reflexivity.
Qed.

Lemma shannon_loop_closed (counts : list Z) (total : Z) :
  total <> 0 -> Forall (fun c => 1 <= c) counts ->
  forall acc, shannon_loop counts total acc = Ok (acc + entropy counts total)%R.
Proof.
  intros Ht Hc.
  induction Hc as [|c rest Hc1 Hrest IH]; intros acc.
  - simpl. f_equal. Lra.lra.
  - simpl shannon_loop.
    assert ((c >? 0) = true) as -> by (apply Z.gtb_lt; lia).
    unfold truediv. pose proof Ht as Hb. apply Z.eqb_neq in Hb. rewrite Hb.
    simpl bind. rewrite IH. rewrite Q2R_fraction by exact Ht.
    f_equal. simpl entropy. unfold entropy_term. Lra.lra.
Qed.

Lemma entropy_term_nonneg (p : R) : (0 < p <= 1)%R -> (0 <= entropy_term p)%R.
Proof.
  intros [Hp [Hlt | ->]]; unfold entropy_term.
  - pose proof (ln_increasing p 1 Hp Hlt) as H. rewrite ln_1 in H.
    assert (0 < p * - ln p)%R by (apply Rmult_lt_0_compat; Lra.lra). Lra.lra.
  - rewrite ln_1. Lra.lra.
Qed.

Lemma entropy_term_zero (p : R) : (0 < p <= 1)%R -> (entropy_term p = 0%R <-> p = 1%R).
Proof.
  intros [Hp Hle]. unfold entropy_term. split.
  - intros H. destruct (Req_dec p 1) as [E|N]; [exact E|exfalso].
    pose proof (ln_neq_0 p N Hp) as Hln.
    assert (p * ln p = 0)%R as Hz by Lra.lra.
    apply Rmult_integral in Hz. destruct Hz; [Lra.lra|contradiction].
  - intros ->. rewrite ln_1. Lra.lra.
Qed.

Lemma proportion_range (c t : Z) : 1 <= c <= t -> (0 < IZR c / IZR t <= 1)%R.
Proof.
  intros [Hc Ht].
  assert (0 < IZR c)%R as Hc' by (apply IZR_lt; lia).
  assert (0 < IZR t)%R as Ht' by (apply IZR_lt; lia).
  assert (IZR c <= IZR t)%R as Hle by (apply IZR_le; lia).
  split.
  - apply Rdiv_lt_0_compat; assumption.
  - apply Rmult_le_reg_r with (r := IZR t); [exact Ht'|].
    unfold Rdiv. rewrite Rmult_assoc, Rinv_l by Lra.lra. Lra.lra.
Qed.

Lemma proportion_one (c t : Z) : 0 < t -> (IZR c / IZR t = 1)%R <-> c = t.
Proof.
  intros Ht. assert (0 < IZR t)%R as Ht' by (apply IZR_lt; lia). split.
  - intros H. apply eq_IZR.
    apply Rmult_eq_compat_r with (r := IZR t) in H.
    unfold Rdiv in H. rewrite Rmult_assoc, Rinv_l in H by Lra.lra. Lra.lra.
  - intros ->. unfold Rdiv. apply Rinv_r. Lra.lra.
Qed.

Lemma entropy_nonneg (counts : list Z) (total : Z) :
  Forall (fun c => 1 <= c <= total) counts -> (0 <= entropy counts total)%R.
Proof.
  induction 1 as [|c rest Hc Hrest IH]; simpl; [Lra.lra|].
  pose proof (entropy_term_nonneg _ (proportion_range c total Hc)). Lra.lra.
Qed.

Lemma entropy_zero (counts : list Z) (total : Z) :
  Forall (fun c => 1 <= c <= total) counts ->
  (entropy counts total = 0%R <-> Forall (fun c => c = total) counts).
Proof.
  induction 1 as [|c rest Hc Hrest IH]; simpl.
  - split; [constructor|reflexivity].
  - pose proof (proportion_range c total Hc) as Hp.
    pose proof (entropy_term_nonneg _ Hp) as H1.
    pose proof (entropy_nonneg rest total Hrest) as H2.
    split.
    + intros H.
      assert (entropy_term (IZR c / IZR total) = 0)%R as E1 by Lra.lra.
      assert (entropy rest total = 0)%R as E2 by Lra.lra.
      constructor.
      * apply (proportion_one c total ltac:(lia)).
        apply (entropy_term_zero _ Hp). exact E1.
      * apply IH. exact E2.
    + intros H. inversion H as [|? ? Hc' Hrest']; subst.
      apply IH in Hrest'. rewrite Hrest'.
      assert (entropy_term (IZR total / IZR total) = 0)%R as E.
      { apply (entropy_term_zero _ Hp). apply proportion_one; lia. }
      rewrite E. Lra.lra.
Qed.

Lemma zsum_upper (counts : list Z) :
  Forall (fun c => 1 <= c) counts -> Forall (fun c => 1 <= c <= zsum counts) counts.
Proof.
  induction 1 as [|c rest Hc Hrest IH]; [constructor|].
  pose proof (zsum_lower rest Hrest) as Hs. simpl zsum. constructor.
  - lia.
  - eapply Forall_impl; [|exact IH]. simpl. intros a Ha. lia.
Qed.

Lemma zsum_constant (counts : list Z) (t : Z) :
  Forall (fun c => c = t) counts -> zsum counts = Z.of_nat (length counts) * t.
Proof.
  induction 1 as [|c rest Hc Hrest IH]; simpl zsum; simpl length; [lia|].
  rewrite Nat2Z.inj_succ. lia.
Qed.

(** With positive counts, every count equals the total exactly when
    there is a single count. *)
Lemma single_group (counts : list Z) :
  Forall (fun c => 1 <= c) counts -> counts <> [] ->
  (Forall (fun c => c = zsum counts) counts <-> length counts = 1%nat).
Proof.
  intros Hc Hne. split.
  - intros H. pose proof (zsum_constant _ _ H) as E.
    pose proof (zsum_lower _ Hc) as Hl.
    destruct counts as [|c rest]; [congruence|]. simpl length in *.
    assert (0 < zsum (c :: rest)) by lia. nia.
  - intros H. destruct counts as [|c [|c' rest]]; try discriminate.
    constructor; [simpl; lia|constructor].
Qed.

Lemma positive_groups_all (d : list (string * Z)) :
  Forall (fun c => 1 <= c) (values d) -> positive_groups d = length d.
Proof.
  intros H. unfold positive_groups.
  rewrite forallb_filter_id.
  - unfold values. apply length_map.
  - apply forallb_forall. rewrite Forall_forall in H.
    intros c Hc. apply Z.gtb_lt. specialize (H c Hc). lia.
Qed.

Lemma shannon_value (l : list TaxonomicAssignment) :
  l <> [] -> Forall (fun a => 1 <= read_count a) l ->
  shannon (species_counts l) (total_reads l)
  = Ok (entropy (values (species_counts l)) (total_reads l)).
Proof.
  intros Hne Hl.
  pose proof (total_reads_pos l Hne Hl) as Ht.
  pose proof (species_counts_lower 1 l ltac:(lia) Hl) as Hc.
  assert (total_reads l <> 0) as Hnz by lia.
  pose proof (shannon_loop_closed _ _ Hnz Hc 0%R) as Hs.
  rewrite Rplus_0_l in Hs. exact Hs.
Qed.


(** On a non-empty assignment set whose read counts are all at least 1
    the computation raises nothing. *)
Lemma compute_succeeds (l : list TaxonomicAssignment) :
  l <> [] -> Forall (fun a => 1 <= read_count a) l ->
  exists m, compute l = Ok m.
Proof.
  intros Hne Hl.
  pose proof (shannon_value l Hne Hl) as Hs.
  destruct (simpson_value l Hne Hl) as [s [Hd _]].
  unfold compute. rewrite Hs, Hd. simpl. eexists. reflexivity.
Qed.

(** C1, as the specification words it, fails: on the single assignment
    [unplaced], of uncertain confidence, the code counts one assigned
    sequence and stores the rate 1, where the specification counts none and
    expects the rate 0. *)
Lemma assignment_rate_counts_uncertain :
  exists m, compute [unplaced] = Ok m
    /\ assigned_sequences m = 1
    /\ Spec.assigned_not_uncertain [unplaced] = 0
    /\ ~ (assignment_rate m
          == inject_Z (Spec.assigned_not_uncertain [unplaced])
             / inject_Z (total_sequences m))%Q.
Proof.
  assert (exists h, shannon (species_counts [unplaced]) (total_reads [unplaced]) = Ok h)
    as [h Hh].
  { unfold shannon. cbn. eexists. reflexivity. }
  eexists. split.
  - unfold compute. rewrite Hh. cbn. reflexivity.
  - cbn. repeat split. intros H. discriminate H.
Qed.

(** C1, amended.  For a non-empty assignment set, [assignment_rate] is
    [assigned_sequences / total_sequences] when the read total is positive
    and 0 otherwise, where [assigned_sequences] counts every assignment of
    the set, whatever its confidence level, and [total_sequences] is the
    sum of the read counts; [compute] stores these values. *)
Theorem assignment_rate_all_over_reads (l : list TaxonomicAssignment) :
  l <> [] ->
  let assigned := Z.of_nat (length l) in
  let total := zsum (map read_count l) in
  (0 < total ->
   (rate (count_all l) (total_reads l) == inject_Z assigned / inject_Z total)%Q)
  /\ (total <= 0 -> rate (count_all l) (total_reads l) = 0%Q)
  /\ (forall m, compute l = Ok m ->
        assignment_rate m = rate (count_all l) (total_reads l)
        /\ assigned_sequences m = assigned
        /\ total_sequences m = total).
Proof.
  intros _ assigned total. unfold total. rewrite <- total_reads_sum.
  split; [|split].
  - intros Hpos. unfold rate, count_all. apply Z.gtb_lt in Hpos. rewrite Hpos.
    reflexivity.
  - intros Hle. unfold rate.
    destruct (total_reads l >? 0) eqn:E; [apply Z.gtb_lt in E; lia|reflexivity].
  - intros m Hm. pose proof (compute_fields l m Hm) as F.
    repeat split; apply F.
Qed.

Lemma assignment_rate_all_over_reads_witness :
  [unplaced] <> []
  /\ (rate (count_all [unplaced]) (total_reads [unplaced]) == 1)%Q.
Proof.
  split; [discriminate|].
  rewrite (proj1 (assignment_rate_all_over_reads [unplaced] ltac:(discriminate))
                 ltac:(reflexivity)).
  reflexivity.
Defined.

(** C2.  With neither species nor genus the key is ["None_sp"], not
    ["Unknown"]: the f-string is never empty, so the last alternative of the
    [or] chain is unreachable. *)
Theorem species_key_without_genus :
  species unplaced = None /\ genus unplaced = None
  /\ species_key unplaced = "None_sp"
  /\ species_counts [unplaced] = [("None_sp", 1)]
  /\ Spec.species_level_key unplaced = "Unknown"
  /\ species_key unplaced <> Spec.species_level_key unplaced.
Proof. repeat split. discriminate. Qed.

(** *** The concrete scenarios of the specification *)

Example scenario3_counts :
  species_counts scenario3 = [("A", 1); ("B", 1); ("C", 2)]
  /\ total_reads scenario3 = 4
  /\ singletons (species_counts scenario3) = 2
  /\ doubletons (species_counts scenario3) = 1
  /\ (chao1 (species_counts scenario3) == 5)%Q.
Proof. repeat split. Qed.

Example scenario4_simpson :
  exists D, simpson (species_counts scenario4) (total_reads scenario4) = Ok D
    /\ (D == 0)%Q.
Proof. eexists. split; [vm_compute; reflexivity|reflexivity]. Qed.


Lemma simpson_in_unit_interval_witness :
  scenario3 <> [] /\ Forall (fun a => 1 <= read_count a) scenario3
  /\ exists D, simpson (species_counts scenario3) (total_reads scenario3) = Ok D
       /\ (0 <= D)%Q /\ (D < 1)%Q.
Proof.
  assert (scenario3 <> []) as Hne by discriminate.
  assert (Forall (fun a => 1 <= read_count a) scenario3) as Hl.
  { repeat constructor; simpl; lia. }
  split; [exact Hne|]. split; [exact Hl|].
  destruct (simpson_in_unit_interval scenario3 Hne Hl) as [D [Hs [H0 [H1 _]]]].
  exists D. repeat split; assumption.
Defined.

Lemma group_percentages_bounded_witness :
  Cases.two_and_nine <> [] /\ Forall (fun a => 1 <= read_count a) Cases.two_and_nine
  /\ (percentage (group_reads metazoan_phylums Cases.two_and_nine)
                 (total_reads Cases.two_and_nine) <= 100)%Q.
Proof.
  assert (Cases.two_and_nine <> []) as Hne by discriminate.
  assert (Forall (fun a => 1 <= read_count a) Cases.two_and_nine) as Hl.
  { repeat constructor; simpl; lia. }
  split; [exact Hne|]. split; [exact Hl|].
  apply (group_percentages_bounded Cases.two_and_nine Hne Hl).
Defined.

End MetricsFacts.

(** ** Facts about the tasks *)

Module TaskFacts.
Import Orm PyRandom Tasks Fixtures.

(** *** [calculate_biodiversity_metrics] *)

(** The task catches every exception: it always returns a dictionary. *)
Lemma calculate_returns (sample_pk : Z) (w : World) :
  exists r, fst (calculate_biodiversity_metrics sample_pk w) = Ok r.
Proof.
  unfold calculate_biodiversity_metrics, try_except.
  destruct (calculate_body sample_pk w) as [[r|e] w'].
  - exists r. reflexivity.
  - destruct e; simpl; eexists; reflexivity.
Qed.

(** C3, as the specification words it, fails: on a sample without
    assignments the task raises nothing, it returns an error dictionary. *)
Lemma calculate_empty_does_not_raise :
  assignments_of (mkSample 1 "S1") (db fresh_world) = []
  /\ ~ (exists e, fst (calculate_biodiversity_metrics 1 fresh_world) = Raise e)
  /\ fst (calculate_biodiversity_metrics 1 fresh_world)
     = Ok (ErrorMessage "No taxonomic assignments found for sample").
Proof.
  split; [reflexivity|]. split; [|reflexivity].
  intros [e H]. cbv in H. discriminate H.
Qed.

(** C3, amended.  On a sample without assignments the task returns the
    error dictionary [{'error': 'No taxonomic assignments found for
    sample'}] and leaves the whole state, the metrics table included, as it
    was. *)
Theorem calculate_empty_reports_error (sample_pk : Z) (s : Sample) (w : World) :
  find (fun s => pk s =? sample_pk) (samples (db w)) = Some s ->
  assignments_of s (db w) = [] ->
  calculate_biodiversity_metrics sample_pk w
  = (Ok (ErrorMessage "No taxonomic assignments found for sample"), w).
Proof.
  intros Hs He.
  unfold calculate_biodiversity_metrics, try_except, calculate_body, mbind,
    get_sample, all_assignments.
  rewrite Hs, He. reflexivity.
Qed.

Lemma calculate_empty_reports_error_witness :
  calculate_biodiversity_metrics 1 fresh_world
  = (Ok (ErrorMessage "No taxonomic assignments found for sample"), fresh_world).
Proof.
  apply (calculate_empty_reports_error 1 (mkSample 1 "S1") fresh_world);
    reflexivity.
Defined.

(** When the computation returns, the task stores its values for the
    sample and reports them. *)
Lemma calculate_stores (sample_pk : Z) (s : Sample) (w : World)
      (m : BiodiversityMetrics) :
  find (fun s => pk s =? sample_pk) (samples (db w)) = Some s ->
  assignments_of s (db w) <> [] ->
  Metrics.compute (assignments_of s (db w)) = Ok m ->
  calculate_biodiversity_metrics sample_pk w
  = (Ok (MetricsDone sample_pk (shannon_diversity m) (simpson_diversity m)
                     (observed_otus m) (total_sequences m)),
     with_db (fun d => set_metrics (upsert (pk s) m (biodiversity_metrics d)) d) w).
Proof.
  intros Hs Hne Hm.
  unfold calculate_biodiversity_metrics, try_except, calculate_body, mbind,
    get_sample, all_assignments, lift.
  rewrite Hs. destruct (assignments_of s (db w)) as [|a l] eqn:E; [congruence|].
  simpl exists_. simpl negb. cbv iota. rewrite Hm. reflexivity.
Qed.

(** *** [process_sequence_file]: the loop *)

Lemma mbind_ok {A B : Type} (m : M A) (k : A -> M B) (w w1 : World) (a : A) :
  m w = (Ok a, w1) -> mbind m k w = k a w1.
Proof. intros H. unfold mbind. rewrite H. reflexivity. Qed.

Lemma mbind_raise {A B : Type} (m : M A) (k : A -> M B) (w w1 : World) (e : pyexn) :
  m w = (Raise e, w1) -> mbind m k w = (Raise e, w1).
Proof. intros H. unfold mbind. rewrite H. reflexivity. Qed.

(** One iteration draws five variates and inserts the row they determine. *)
Lemma simulate_one_eq (s : Sample) (i : nat) (w : World) :
  simulate_one s i w
  = create (drawn_row s (variates (rng w)) i (cursor (rng w))) (advance 5 w).
Proof. reflexivity. Qed.

Lemma create_cases (a : TaxonomicAssignment) (w : World) :
  (existsb (same_key a) (taxonomic_assignments (db w)) = true
   /\ create a w = (Raise IntegrityError, w))
  \/ (existsb (same_key a) (taxonomic_assignments (db w)) = false
      /\ create a w
         = (Ok a, with_db (set_assignments (taxonomic_assignments (db w) ++ [a])) w)).
Proof.
  unfold create. destruct (existsb (same_key a) (taxonomic_assignments (db w)));
    [left|right]; split; reflexivity.
Qed.

(** What the loop leaves behind, whether it completes or stops at a
    refused insert: the rows of the first [k] iterations appended to the
    table, everything else but the cursor untouched. *)
Lemma simulate_loop_appends (s : Sample) (n : nat) :
  forall (i : nat) (cnt : Z) (w w' : World) (r : pyresult Z),
    simulate_loop s i n cnt w = (r, w') ->
    exists k,
      taxonomic_assignments (db w')
      = (taxonomic_assignments (db w)
         ++ drawn_rows s (variates (rng w)) i (cursor (rng w)) k)%list
      /\ samples (db w') = samples (db w)
      /\ biodiversity_metrics (db w') = biodiversity_metrics (db w)
      /\ queue (db w') = queue (db w)
      /\ variates (rng w') = variates (rng w)
      /\ match r with
         | Ok c => k = n /\ c = cnt + Z.of_nat n
         | Raise e => e = IntegrityError /\ (k < n)%nat
         end.
Proof.
  induction n as [|n IH]; intros i cnt w w' r H.
  - simpl in H. injection H as <- <-. exists 0%nat. simpl.
    rewrite List.app_nil_r, Z.add_0_r. repeat split.
  - simpl simulate_loop in H.
    destruct (create_cases (drawn_row s (variates (rng w)) i (cursor (rng w)))
                           (advance 5 w)) as [[_ E]|[_ E]].
    + rewrite (mbind_raise (simulate_one s i) _ w _ _ E) in H. injection H as <- <-.
      exists 0%nat. simpl. rewrite List.app_nil_r. repeat split. lia.
    + rewrite (mbind_ok (simulate_one s i) _ w _ _ E) in H. apply IH in H.
      destruct H as [k [Hrows [Hs [Hm [Hq [Hv Hr]]]]]].
      exists (S k). simpl in Hrows, Hs, Hm, Hq, Hv. simpl drawn_rows.
      rewrite Hrows, <- List.app_assoc. simpl. repeat split; try assumption.
      destruct r as [c|e].
      * destruct Hr as [-> ->]. split; [reflexivity|lia].
      * destruct Hr as [-> Hk]. split; [reflexivity|lia].
Qed.

(** *** [process_sequence_file]: the task *)

Lemma randint_eq (a b : Z) (w : World) :
  randint a b w
  = (Ok (a + Qfloor (variates (rng w) (cursor (rng w)) * inject_Z (b - a + 1))),
     advance 1 w).
Proof. reflexivity. Qed.

Lemma scaled_floor_range (u : Q) (m : Z) :
  (0 <= u)%Q -> (u < 1)%Q -> 0 < m -> 0 <= Qfloor (u * inject_Z m) < m.
Proof.
  intros H0 H1 Hm.
  assert (0 < inject_Z m)%Q as Hq by (change 0%Q with (inject_Z 0); rewrite <- Zlt_Qlt; lia).
  split.
  - change 0 with (Qfloor 0). apply Qfloor_resp_le.
    apply Qmult_le_0_compat; [exact H0|apply Qlt_le_weak; exact Hq].
  - rewrite Zlt_Qlt. eapply Qle_lt_trans; [apply Qfloor_le|].
    rewrite <- (Qmult_1_l (inject_Z m)) at 2.
    apply Qmult_lt_compat_r; assumption.
Qed.

Lemma iterations_range (w : World) :
  unit_interval (rng w) -> 50 <= iterations w <= 200.
Proof.
  intros H. destruct (H (cursor (rng w))) as [H0 H1]. unfold iterations.
  pose proof (scaled_floor_range _ (200 - 50 + 1) H0 H1 ltac:(lia)). lia.
Qed.

(** The task, with its exception handlers resolved. *)
Lemma process_sequence_file_eq (sample_pk : Z) (file_path : string) (w : World) :
  process_sequence_file sample_pk file_path w
  = match find (fun s => pk s =? sample_pk) (samples (db w)) with
    | None => (Ok (SampleNotFound sample_pk), w)
    | Some s =>
        match simulate_loop s 0 (Z.to_nat (iterations w)) 0 (advance 1 w) with
        | (Ok c, w') =>
            (Ok (FileProcessed sample_pk c file_path),
             with_db (fun d => set_queue (queue d ++ [CalculateBiodiversityMetrics sample_pk]) d) w')
        | (Raise e, w') => on_error sample_pk e w'
        end
    end.
Proof.
  unfold process_sequence_file, try_except, process_body, mbind, get_sample.
  destruct (find (fun s => pk s =? sample_pk) (samples (db w))) as [s|];
    [|reflexivity].
  rewrite randint_eq. fold (iterations w).
  destruct (simulate_loop s 0 (Z.to_nat (iterations w)) 0 (advance 1 w))
    as [[c|e] w']; reflexivity.
Qed.

Lemma same_key_drawn (s : Sample) (v v' : nat -> Q) (i p p' : nat) :
  same_key (drawn_row s v i p) (drawn_row s v' i p') = true.
Proof.
  unfold same_key, drawn_row, simulated. simpl.
  rewrite Z.eqb_refl, String.eqb_refl. reflexivity.
Qed.

Lemma existsb_middle {A : Type} (f : A -> bool) (l l' : list A) (x : A) :
  f x = true -> existsb f (l ++ x :: l') = true.
Proof.
  intros H. rewrite existsb_app. simpl. rewrite H.
  rewrite orb_true_r. reflexivity.
Qed.

(** *** Sequence identifiers are distinct within a run *)

Lemma parse_zeros (k : nat) (field : string) :
  parse_04d (zeros k ++ field) = parse_04d field.
Proof.
  induction k as [|k IH]; [reflexivity|].
  simpl zeros. simpl append. unfold parse_04d in *. simpl NilEmpty.uint_of_string.
  destruct (NilEmpty.uint_of_string (zeros k ++ field)) as [d|];
    destruct (NilEmpty.uint_of_string field) as [d'|]; simpl in *;
    try discriminate; try reflexivity.
  exact IH.
Qed.

Lemma parse_format (i : nat) : parse_04d (format_04d i) = Some i.
Proof.
  unfold format_04d. rewrite parse_zeros. unfold parse_04d, decimal.
  rewrite NilEmpty.usu. simpl. rewrite Unsigned.of_to. reflexivity.
Qed.

Lemma format_04d_inj (i j : nat) : format_04d i = format_04d j -> i = j.
Proof.
  intros H. apply (f_equal parse_04d) in H. rewrite !parse_format in H.
  congruence.
Qed.

Lemma append_cancel_l (a b c : string) : (a ++ b = a ++ c)%string -> b = c.
Proof.
  induction a as [|x a IH]; simpl; intros H; [exact H|].
  injection H as H. apply IH. exact H.
Qed.

Lemma make_sequence_id_inj (s : Sample) (i j : nat) :
  make_sequence_id s i = make_sequence_id s j -> i = j.
Proof.
  unfold make_sequence_id. intros H.
  repeat apply append_cancel_l in H. apply format_04d_inj. exact H.
Qed.

Lemma same_key_drawn_iff (s : Sample) (v v' : nat -> Q) (i j p p' : nat) :
  same_key (drawn_row s v i p) (drawn_row s v' j p') = true <-> i = j.
Proof.
  split.
  - unfold same_key, drawn_row, simulated. cbn [sample sequence_id]. intros H.
    apply andb_true_iff in H. destruct H as [_ H].
    apply String.eqb_eq in H. apply make_sequence_id_inj in H. exact H.
  - intros ->. apply same_key_drawn.
Qed.

Lemma create_fresh (s : Sample) (v : nat -> Q) (i p : nat) (w : World) :
  earlier s i (taxonomic_assignments (db w)) ->
  existsb (same_key (drawn_row s v i p)) (taxonomic_assignments (db w)) = false.
Proof.
  intros He. destruct (existsb _ _) eqn:E; [exfalso|reflexivity].
  apply existsb_exists in E. destruct E as [a [Ha Hk]].
  unfold same_key in Hk. apply andb_true_iff in Hk. destruct Hk as [Hs Hid].
  apply Z.eqb_eq in Hs. apply String.eqb_eq in Hid.
  destruct (He a Ha (eq_sym Hs)) as [j [Hj Hseq]].
  unfold drawn_row, simulated in Hid. cbn [sequence_id] in Hid.
  rewrite Hseq in Hid. apply make_sequence_id_inj in Hid. lia.
Qed.

(** From a table holding only earlier rows of the sample, the loop runs
    to completion. *)
Lemma simulate_loop_completes (s : Sample) (n : nat) :
  forall (i : nat) (cnt : Z) (w : World),
    earlier s i (taxonomic_assignments (db w)) ->
    exists w', simulate_loop s i n cnt w = (Ok (cnt + Z.of_nat n), w').
Proof.
  induction n as [|n IH]; intros i cnt w He.
  - exists w. simpl. rewrite Z.add_0_r. reflexivity.
  - simpl simulate_loop.
    set (row := drawn_row s (variates (rng w)) i (cursor (rng w))).
    destruct (create_cases row (advance 5 w)) as [[E _]|[_ E]].
    + unfold row in E.
      rewrite (create_fresh s (variates (rng w)) i (cursor (rng w)) (advance 5 w) He)
        in E.
      discriminate E.
    + rewrite (mbind_ok (simulate_one s i) _ w _ _ E).
      destruct (IH (S i) (cnt + 1)
                   (with_db (set_assignments
                               (taxonomic_assignments (db (advance 5 w)) ++ [row]))
                            (advance 5 w))) as [w' Hw'].
      * intros a Ha Hs. simpl in Ha. apply in_app_or in Ha.
        destruct Ha as [Ha|[<-|[]]].
        -- destruct (He a Ha Hs) as [j [Hj Hid]]. exists j. split; [lia|exact Hid].
        -- exists i. split; [lia|reflexivity].
      * exists w'. rewrite Hw'. f_equal. f_equal. lia.
Qed.

(** A first run on a sample that has no assignment yet completes: it
    stores the rows of all its iterations, between 50 and 200 of them. *)
Theorem first_run_completes (sample_pk : Z) (file_path : string) (s : Sample) (w : World) :
  unit_interval (rng w) ->
  find (fun s => pk s =? sample_pk) (samples (db w)) = Some s ->
  assignments_of s (db w) = [] ->
  exists w1,
    process_sequence_file sample_pk file_path w
    = (Ok (FileProcessed sample_pk (iterations w) file_path), w1)
    /\ 50 <= iterations w <= 200
    /\ taxonomic_assignments (db w1)
       = (taxonomic_assignments (db w)
          ++ drawn_rows s (variates (rng w)) 0 (1 + cursor (rng w))
                        (Z.to_nat (iterations w)))%list.
Proof.
  intros Hu Hs Hfresh.
  pose proof (iterations_range w Hu) as Hn.
  assert (earlier s 0 (taxonomic_assignments (db (advance 1 w)))) as He.
  { intros a Ha Hsa. exfalso.
    assert (In a (assignments_of s (db w))) as Hin.
    { unfold assignments_of. apply filter_In. split; [exact Ha|].
      apply Z.eqb_eq. exact Hsa. }
    rewrite Hfresh in Hin. exact Hin. }
  destruct (simulate_loop_completes s (Z.to_nat (iterations w)) 0 0 _ He)
    as [w' Hw'].
  rewrite process_sequence_file_eq, Hs, Hw'.
  eexists. split; [|split].
  - rewrite Z2Nat.id by lia. reflexivity.
  - exact Hn.
  - apply simulate_loop_appends in Hw'.
    destruct Hw' as [k [Hrows [_ [_ [_ [_ [-> _]]]]]]]. simpl. exact Hrows.
Qed.

(** An insert whose key is already in the table is refused. *)
Lemma create_duplicate (a : TaxonomicAssignment) (w : World) :
  existsb (same_key a) (taxonomic_assignments (db w)) = true ->
  create a w = (Raise IntegrityError, w).
Proof. intros H. unfold create. rewrite H. reflexivity. Qed.

(** A completed run leaves the row of index 0 in the table. *)
Lemma completed_run_first_row (sample_pk : Z) (file_path : string)
      (w w1 : World) (n : Z) :
  unit_interval (rng w) ->
  process_sequence_file sample_pk file_path w
  = (Ok (FileProcessed sample_pk n file_path), w1) ->
  exists s,
    find (fun s => pk s =? sample_pk) (samples (db w1)) = Some s
    /\ (forall v p, existsb (same_key (drawn_row s v 0 p))
                            (taxonomic_assignments (db w1)) = true)
    /\ 50 <= n <= 200.
Proof.
  intros Hu H. rewrite process_sequence_file_eq in H.
  destruct (find (fun s => pk s =? sample_pk) (samples (db w))) as [s|] eqn:Hs;
    [|discriminate].
  destruct (simulate_loop s 0 (Z.to_nat (iterations w)) 0 (advance 1 w))
    as [[c|e] w'] eqn:L; [|destruct e; discriminate].
  injection H as <- <-.
  pose proof (iterations_range w Hu) as Hn.
  apply simulate_loop_appends in L.
  destruct L as [k [Hrows [Hsm [_ [_ [_ [-> ->]]]]]]].
  exists s. simpl. rewrite Hsm. simpl. split; [exact Hs|]. split.
  - intros v p. rewrite Hrows.
    destruct (Z.to_nat (iterations w)) as [|m] eqn:Em; [lia|].
    simpl drawn_rows. apply existsb_middle. apply same_key_drawn.
  - rewrite Z2Nat.id by lia. lia.
Qed.

(** C9, amended.  After a completed run of [process_sequence_file] on a
    sample, a second run on that sample, whatever the generator yields,
    is refused at its first insert by the uniqueness of
    [(sample, sequence_id)]: it returns the error dictionary of
    [IntegrityError] and leaves the database, hence the set of
    assignments, exactly as the first run left it. *)
Theorem rerun_is_refused (sample_pk : Z) (file_path file_path' : string)
        (w w1 : World) (n : Z) (r2 : Random) :
  unit_interval (rng w) -> unit_interval r2 ->
  process_sequence_file sample_pk file_path w
  = (Ok (FileProcessed sample_pk n file_path), w1) ->
  process_sequence_file sample_pk file_path' {| db := db w1; rng := r2 |}
  = (Ok (ErrorOf IntegrityError), advance 6 {| db := db w1; rng := r2 |}).
Proof.
  intros Hu Hu2 H.
  destruct (completed_run_first_row _ _ _ _ _ Hu H) as [s [Hs [Hrow _]]].
  set (w2 := {| db := db w1; rng := r2 |}).
  rewrite process_sequence_file_eq. change (db w2) with (db w1). rewrite Hs.
  pose proof (iterations_range w2 Hu2) as Hn.
  destruct (Z.to_nat (iterations w2)) as [|m] eqn:Em; [lia|].
  simpl simulate_loop.
  assert (simulate_one s 0 (advance 1 w2)
          = (Raise IntegrityError, advance 5 (advance 1 w2))) as E.
  { rewrite simulate_one_eq. apply create_duplicate. apply Hrow. }
  rewrite (mbind_raise (simulate_one s 0) _ _ _ _ E). reflexivity.
Qed.

(** *** The rows a run stores *)

Lemma on_error_world (sample_pk : Z) (e : pyexn) (w : World) :
  snd (on_error sample_pk e w) = w.
Proof. destruct e; reflexivity. Qed.

(** Whatever its outcome, a run appends to the table the rows of its
    first [k] iterations, for some [k], drawn after the variate that fixed
    the number of iterations. *)
Lemma process_rows (sample_pk : Z) (file_path : string) (w : World) :
  exists s k,
    taxonomic_assignments (db (snd (process_sequence_file sample_pk file_path w)))
    = (taxonomic_assignments (db w)
       ++ drawn_rows s (variates (rng w)) 0 (1 + cursor (rng w)) k)%list.
Proof.
  rewrite process_sequence_file_eq.
  destruct (find (fun s => pk s =? sample_pk) (samples (db w))) as [s|].
  - destruct (simulate_loop s 0 (Z.to_nat (iterations w)) 0 (advance 1 w))
      as [r w'] eqn:L.
    apply simulate_loop_appends in L. destruct L as [k [Hrows _]].
    exists s, k. destruct r as [c|e].
    + simpl. exact Hrows.
    + rewrite on_error_world. exact Hrows.
  - exists (mkSample 0 ""), 0%nat. simpl. rewrite List.app_nil_r. reflexivity.
Qed.

Lemma nth_drawn_rows (s : Sample) (v : nat -> Q) (k : nat) :
  forall (i p j : nat) (a : TaxonomicAssignment),
    nth_error (drawn_rows s v i p k) j = Some a ->
    a = drawn_row s v (i + j) (5 * j + p).
Proof.
  induction k as [|k IH]; intros i p j a H.
  - destruct j; discriminate H.
  - destruct j as [|j]; simpl in H.
    + injection H as <-. f_equal; lia.
    + apply IH in H. rewrite H. f_equal; lia.
Qed.

Lemma Qle_bool_false (x y : Q) : Qle_bool x y = false <-> (y < x)%Q.
Proof.
  split.
  - intros H. apply Qnot_le_lt. intros Hle. apply Qle_bool_iff in Hle. congruence.
  - intros H. destruct (Qle_bool x y) eqn:E; [|reflexivity].
    apply Qle_bool_iff in E. exfalso. apply (Qlt_not_le _ _ H E).
Qed.

(** The tier, the score and the novelty flag of a drawn row, read off the
    variates. *)
Lemma drawn_row_level (s : Sample) (v : nat -> Q) (i p : nat) :
  (confidence_level (drawn_row s v i p) = high <-> (3 # 10 < v (1 + p)%nat)%Q)
  /\ (confidence_level (drawn_row s v i p) = medium <-> (v (1 + p)%nat <= 3 # 10)%Q).
Proof.
  unfold drawn_row, simulated. cbn [confidence_level].
  destruct (Qle_bool (v (1 + p)%nat) (3 # 10)) eqn:E; simpl.
  - pose proof (proj1 (Qle_bool_iff _ _) E) as Hle. split; split; try discriminate; auto.
    intros Hlt. exfalso. apply (Qlt_not_le _ _ Hlt Hle).
  - pose proof (proj1 (Qle_bool_false _ _) E) as Hlt. split; split; try discriminate; auto.
    intros Hle. exfalso. apply (Qlt_not_le _ _ Hlt Hle).
Qed.

Lemma drawn_row_score (s : Sample) (v : nat -> Q) (i p : nat) :
  (0 <= v (2 + p)%nat)%Q -> (v (2 + p)%nat < 1)%Q ->
  (7 # 10 <= confidence_score (drawn_row s v i p))%Q
  /\ (confidence_score (drawn_row s v i p) < 98 # 100)%Q.
Proof.
  intros H0 H1. unfold drawn_row, simulated. cbn [confidence_score].
  split; Lqa.lra.
Qed.

Lemma drawn_row_novel (s : Sample) (v : nat -> Q) (i p : nat) :
  is_novel_taxon (drawn_row s v i p) = true <-> (v (4 + p)%nat < 1 # 10)%Q.
Proof.
  unfold drawn_row, simulated. cbn [is_novel_taxon].
  rewrite negb_true_iff. apply Qle_bool_false.
Qed.


(** In exact arithmetic a score stays below 0.98; as doubles the scores
    reach both ends: at the draw 0 the expression of
    [random.uniform(0.7, 0.98)] is the double 0.7, and at the largest value
    of [random.random()] it rounds to the double 0.98 itself. *)
Lemma uniform_reaches_its_end_points :
  Doubles.uniform Doubles.score_low Doubles.score_high (Doubles.of_int 0)
  = Doubles.score_low
  /\ Doubles.uniform Doubles.score_low Doubles.score_high Doubles.largest_random
     = Doubles.score_high
  /\ Doubles.value Doubles.largest_random
     = Some (9007199254740991 # 9007199254740992)%Q.
Proof.
  split; [|split]; vm_compute; reflexivity.
Qed.



(** C8, as the specification words it, fails.  The first row stored by a
    run whose generator yields 1/2 throughout records no hit (no identity,
    coverage, e-value or accession), for which the detector of the
    specification answers [true], yet it is not flagged; and the row drawn
    with the variate 0 carries the same match columns and is flagged, so
    the flag is no function of the match. *)
Lemma novel_flag_ignores_the_match :
  exists a, hd_error (taxonomic_assignments processed) = Some a
    /\ Spec.best_match_of a = None
    /\ Spec.is_novel (Spec.best_match_of a) = true
    /\ is_novel_taxon a = false
    /\ exists a',
       hd_error (taxonomic_assignments
                   (db (snd (process_sequence_file 1 "/temp/S1.fastq"
                               {| db := one_sample; rng := constant 0 |}))))
       = Some a'
       /\ is_novel_taxon a' = true
       /\ identity_percent a' = identity_percent a
       /\ coverage_percent a' = coverage_percent a
       /\ e_value a' = e_value a
       /\ best_match_accession a' = best_match_accession a
       /\ database_source a' = database_source a.
Proof.
  eexists. split; [vm_compute; reflexivity|].
  repeat split; try (vm_compute; reflexivity).
  eexists. split; [vm_compute; reflexivity|].
  repeat split; vm_compute; reflexivity.
Qed.

(** C8, amended.  [process_sequence_file] runs no search and consults no
    identity threshold: a row it stores is flagged novel exactly when the
    variate drawn for the flag (offset [5 + 5 j] for row [j]) is below 0.1,
    and every such row records the source [SSU_eukaryote_rRNA] with no
    identity, coverage or e-value. *)
Theorem novel_flag_is_drawn (sample_pk : Z) (file_path : string) (w : World) :
  exists rows,
    taxonomic_assignments (db (snd (process_sequence_file sample_pk file_path w)))
    = (taxonomic_assignments (db w) ++ rows)%list
    /\ forall j a, nth_error rows j = Some a ->
         (is_novel_taxon a = true
          <-> (variates (rng w) (5 + 5 * j + cursor (rng w))%nat < 1 # 10)%Q)
         /\ database_source a = "SSU_eukaryote_rRNA"
         /\ identity_percent a = None
         /\ coverage_percent a = None
         /\ e_value a = None.
Proof.
  destruct (process_rows sample_pk file_path w) as [s [k Hrows]].
  eexists. split; [exact Hrows|].
  intros j a Ha. apply nth_drawn_rows in Ha. subst a.
  assert ((4 + (5 * j + (1 + cursor (rng w))) = 5 + 5 * j + cursor (rng w))%nat)
    as E by lia.
  rewrite <- E. repeat split; try apply drawn_row_novel.
Qed.

(** C9, as the specification words it, fails.  A first run on a fresh
    sample stores 125 rows.  The second run on the identical input does not
    complete: it returns the error dictionary of [IntegrityError].  And a
    second run with other variates leaves the stored row of
    [seq_S1_0000] as it was, where the row it drew for that key differs:
    nothing is overwritten. *)
Lemma rerun_does_not_overwrite :
  fst (process_sequence_file 1 "/temp/S1.fastq" fresh_world)
  = Ok (FileProcessed 1 125 "/temp/S1.fastq")
  /\ length (taxonomic_assignments processed) = 125%nat
  /\ fst (process_sequence_file 1 "/temp/S1.fastq"
            {| db := processed; rng := rng fresh_world |})
     = Ok (ErrorOf IntegrityError)
  /\ ~ (exists n, fst (process_sequence_file 1 "/temp/S1.fastq"
                         {| db := processed; rng := rng fresh_world |})
                  = Ok (FileProcessed 1 n "/temp/S1.fastq"))
  /\ let rerun := process_sequence_file 1 "/temp/S1.fastq"
                    {| db := processed; rng := constant 0 |} in
     let drawn := drawn_row (mkSample 1 "S1") (fun _ => 0%Q) 0 1 in
     exists stored,
       hd_error (taxonomic_assignments (db (snd rerun))) = Some stored
       /\ simulate_one (mkSample 1 "S1") 0
            (advance 1 {| db := processed; rng := constant 0 |})
          = create drawn (advance 6 {| db := processed; rng := constant 0 |})
       /\ same_key drawn stored = true
       /\ (confidence_score stored == 84 # 100)%Q
       /\ (confidence_score drawn == 7 # 10)%Q
       /\ stored <> drawn.
Proof.
  split; [vm_compute; reflexivity|].
  split; [vm_compute; reflexivity|].
  split; [vm_compute; reflexivity|].
  split.
  - intros [n H]. vm_compute in H. discriminate H.
  - eexists. split; [vm_compute; reflexivity|].
    split; [reflexivity|].
    repeat split; try (vm_compute; reflexivity).
    intros H. apply (f_equal is_novel_taxon) in H. vm_compute in H. discriminate H.
Qed.

Lemma rerun_is_refused_witness :
  process_sequence_file 1 "/temp/S1.fastq"
    {| db := processed; rng := constant (1 # 2) |}
  = (Ok (ErrorOf IntegrityError),
     advance 6 {| db := processed; rng := constant (1 # 2) |}).
Proof.
  apply (rerun_is_refused 1 "/temp/S1.fastq" "/temp/S1.fastq" fresh_world
           (snd (process_sequence_file 1 "/temp/S1.fastq" fresh_world))
           125 (constant (1 # 2))).
  - intros n. split; [discriminate|reflexivity].
  - intros n. split; [discriminate|reflexivity].
  - vm_compute. reflexivity.
Defined.

End TaskFacts.

(** ** Further facts about the metrics *)

Module MetricsExtra.
Import Metrics Closed Query GroupingFacts MetricsFacts Fixtures Cases.

(** *** Grouping *)

Lemma keys_dict_add_in (k k' : string) (v : Z) (d : list (string * Z)) :
  In k' (keys (dict_add k v d)) <-> k' = k \/ In k' (keys d).
Proof.
  unfold keys. induction d as [|[k0 v0] d IH]; simpl.
  - intuition.
  - destruct (String.eqb_spec k0 k) as [->|Hne]; simpl.
    + intuition.
    + rewrite IH. intuition.
Qed.

Lemma keys_dict_add_nodup (k : string) (v : Z) (d : list (string * Z)) :
  NoDup (keys d) -> NoDup (keys (dict_add k v d)).
Proof.
  unfold keys. induction d as [|[k0 v0] d IH]; simpl; intros H.
  - constructor; [intros []|constructor].
  - inversion H as [|? ? Hnot Hd]; subst.
    destruct (String.eqb_spec k0 k) as [->|Hne]; simpl.
    + constructor; assumption.
    + constructor; [|apply IH; exact Hd].
      intros Hin. apply (keys_dict_add_in k k0 v d) in Hin.
      destruct Hin as [E|Hin]; [congruence|contradiction].
Qed.

Lemma fold_add_group_keys (l : list TaxonomicAssignment) :
  forall d,
    (NoDup (keys d) -> NoDup (keys (fold_left add_group l d)))
    /\ (forall k, In k (keys (fold_left add_group l d))
                  <-> In k (keys d) \/ In k (map species_key l)).
Proof.
  induction l as [|a l IH]; intros d; simpl.
  - split; [auto|]. intros k. intuition.
  - destruct (IH (add_group d a)) as [IH1 IH2]. split.
    + intros H. apply IH1. apply keys_dict_add_nodup. exact H.
    + intros k. rewrite IH2. unfold add_group. rewrite keys_dict_add_in.
      intuition.
Qed.

Lemma groups_keys (l : list TaxonomicAssignment) :
  NoDup (keys (species_counts l))
  /\ (forall k, In k (keys (species_counts l)) <-> In k (map species_key l)).
Proof.
  destruct (fold_add_group_keys l []) as [Hnd Hin].
  rewrite <- species_counts_fold in Hnd, Hin. split; [apply Hnd; constructor|].
  intros k. rewrite Hin. simpl. intuition.
Qed.

(** X1.  The groups of [species_counts] are keyed by exactly the species
    keys of the assignments, each key once, so [observed_otus] is the
    number of distinct keys; and each group holds the sum of the read
    counts of the assignments with its key. *)
Theorem groups_are_the_distinct_keys (l : list TaxonomicAssignment) :
  NoDup (keys (species_counts l))
  /\ (forall k, In k (keys (species_counts l)) <-> In k (map species_key l))
  /\ otus (species_counts l) = Z.of_nat (length (distinct_keys l))
  /\ (forall k, In k (map species_key l) ->
                dict_get k (species_counts l) = Some (reads_of_key k l))
  /\ (forall k, ~ In k (map species_key l) -> dict_get k (species_counts l) = None).
Proof.
  destruct (fold_add_group_keys l []) as [Hnd Hin].
  rewrite <- species_counts_fold in Hnd, Hin. specialize (Hnd (NoDup_nil _)).
  assert (forall k, In k (keys (species_counts l)) <-> In k (map species_key l)) as Hkeys.
  { intros k. rewrite Hin. simpl. intuition. }
  split; [exact Hnd|]. split; [exact Hkeys|]. split; [|split].
  - unfold otus, distinct_keys. f_equal.
    replace (length (species_counts l)) with (length (keys (species_counts l)))
      by apply length_map.
    apply Nat.le_antisymm; apply NoDup_incl_length.
    + exact Hnd.
    + intros k Hk. apply nodup_In. apply Hkeys. exact Hk.
    + apply NoDup_nodup.
    + intros k Hk. apply nodup_In in Hk. apply Hkeys. exact Hk.
  - intros k Hk. rewrite species_counts_get.
    assert (existsb (has_key k) l = true) as ->; [|reflexivity].
    apply in_map_iff in Hk. destruct Hk as [a [Ha Hin']].
    apply existsb_exists. exists a. split; [exact Hin'|].
    unfold has_key. rewrite Ha. apply String.eqb_refl.
  - intros k Hk. rewrite species_counts_get.
    destruct (existsb (has_key k) l) eqn:E; [exfalso|reflexivity].
    apply existsb_exists in E. destruct E as [a [Ha Hk']].
    apply Hk. apply in_map_iff. exists a. split; [|exact Ha].
    unfold has_key in Hk'. apply String.eqb_eq. exact Hk'.
Qed.

(** X2.  The group totals add up to [total_reads], which is the sum of
    the read counts: no read is lost or counted twice by the grouping. *)
Theorem group_totals_add_up (l : list TaxonomicAssignment) :
  zsum (values (species_counts l)) = total_reads l
  /\ total_reads l = zsum (map read_count l).
Proof. split; [apply species_counts_sum|apply total_reads_sum]. Qed.

(** *** Read counts that are not positive *)

Lemma shannon_loop_raises (counts : list Z) :
  Exists (fun c => 0 < c) counts ->
  forall acc, shannon_loop counts 0 acc = Raise ZeroDivisionError.
Proof.
  induction 1 as [c rest Hc|c rest Hrest IH]; intros acc; simpl.
  - apply Z.gtb_lt in Hc. rewrite Hc. reflexivity.
  - destruct (c >? 0); [reflexivity|apply IH].
Qed.

Lemma shannon_loop_skips (counts : list Z) (total : Z) :
  Forall (fun c => c <= 0) counts ->
  forall acc, shannon_loop counts total acc = Ok acc.
Proof.
  induction 1 as [|c rest Hc Hrest IH]; intros acc; simpl; [reflexivity|].
  destruct (c >? 0) eqn:E; [apply Z.gtb_lt in E; lia|apply IH].
Qed.

Lemma simpson_loop_skips (counts : list Z) (total : Z) :
  Forall (fun c => c <= 0) counts ->
  forall acc, simpson_loop counts total acc = Ok acc.
Proof.
  induction 1 as [|c rest Hc Hrest IH]; intros acc; simpl; [reflexivity|].
  destruct (c >? 0) eqn:E; [apply Z.gtb_lt in E; lia|apply IH].
Qed.

Lemma dict_add_upper (k : string) (v : Z) (d : list (string * Z)) :
  v <= 0 -> Forall (fun c => c <= 0) (values d) ->
  Forall (fun c => c <= 0) (values (dict_add k v d)).
Proof.
  intros Hv. induction d as [|[k' v'] d IH]; simpl; intros H.
  - constructor; [assumption|constructor].
  - inversion H as [|? ? H1 H2]; subst. simpl in H1.
    destruct (String.eqb k' k); simpl; constructor; simpl; auto; lia.
Qed.

Lemma species_counts_upper (l : list TaxonomicAssignment) :
  Forall (fun a => read_count a <= 0) l ->
  Forall (fun c => c <= 0) (values (species_counts l)).
Proof.
  intros Hl. rewrite species_counts_fold.
  assert (forall d, Forall (fun c => c <= 0) (values d) ->
                    Forall (fun c => c <= 0) (values (fold_left add_group l d))) as H.
  { induction Hl as [|a l Ha Hl IH]; intros d Hd; simpl; [exact Hd|].
    apply IH. apply dict_add_upper; assumption. }
  apply H. constructor.
Qed.

Lemma zsum_upper_bound (l : list Z) :
  Forall (fun c => c <= 0) l -> zsum l <= 0.
Proof. induction 1 as [|c l Hc Hl IH]; simpl; lia. Qed.

Lemma count_eq_none (n : Z) (d : list (string * Z)) :
  0 < n -> Forall (fun c => c <= 0) (values d) -> count_eq n d = 0.
Proof.
  intros Hn H. unfold count_eq.
  induction H as [|c rest Hc Hrest IH]; [reflexivity|]. simpl.
  destruct (c =? n) eqn:E; [apply Z.eqb_eq in E; lia|exact IH].
Qed.

(** X3.  When no assignment has a positive read count the computation
    raises nothing, every guard takes its zero branch and no proportion is
    ever formed: Shannon is 0, Simpson is [1 - 0], Chao1 is the number of
    groups, the rate and the four percentages are 0. *)
Theorem metrics_without_reads (l : list TaxonomicAssignment) :
  Forall (fun a => read_count a <= 0) l ->
  exists m, compute l = Ok m
    /\ shannon_diversity m = 0%R
    /\ (simpson_diversity m == 1)%Q
    /\ chao1_richness m = inject_Z (observed_otus m)
    /\ assignment_rate m = 0%Q
    /\ protist_percentage m = 0%Q /\ metazoan_percentage m = 0%Q
    /\ cnidarian_percentage m = 0%Q /\ fungi_percentage m = 0%Q.
Proof.
  intros Hl.
  pose proof (species_counts_upper l Hl) as Hc.
  assert (total_reads l <= 0) as Ht.
  { rewrite <- species_counts_sum. apply zsum_upper_bound. exact Hc. }
  assert ((total_reads l >? 0) = false) as Hg.
  { destruct (total_reads l >? 0) eqn:E; [apply Z.gtb_lt in E; lia|reflexivity]. }
  eexists. split.
  - unfold compute, shannon, simpson.
    rewrite (shannon_loop_skips _ _ Hc), (simpson_loop_skips _ _ Hc). simpl.
    reflexivity.
  - simpl. unfold rate, percentage, chao1, doubletons. rewrite Hg.
    rewrite (count_eq_none 2 _ ltac:(lia) Hc). simpl.
    repeat split; reflexivity.
Qed.

Lemma metrics_without_reads_witness :
  exists m, compute unread = Ok m /\ (simpson_diversity m == 1)%Q.
Proof.
  assert (Forall (fun a => read_count a <= 0) unread) as H.
  { repeat constructor; simpl; lia. }
  destruct (metrics_without_reads unread H) as [m [Hm [_ [Hs _]]]].
  exists m. split; assumption.
Defined.

(** *** Bounds for positive read counts *)

(** X4.  For a non-empty assignment set whose read counts are all at
    least 1, the stored [assignment_rate] lies in [(0, 1]], and
    [novel_sequences <= assigned_sequences <= total_sequences]. *)
Theorem assignment_rate_in_unit_interval (l : list TaxonomicAssignment) :
  l <> [] -> Forall (fun a => 1 <= read_count a) l ->
  exists m, compute l = Ok m
    /\ (0 < assignment_rate m)%Q /\ (assignment_rate m <= 1)%Q
    /\ 0 <= novel_sequences m <= assigned_sequences m
    /\ assigned_sequences m <= total_sequences m.
Proof.
  intros Hne Hl. destruct (compute_succeeds l Hne Hl) as [m Hm].
  exists m. split; [exact Hm|].
  pose proof (compute_fields l m Hm) as [_ [_ [_ [_ [Ht [Ha [Hn [Hr _]]]]]]]].
  pose proof (total_reads_pos l Hne Hl) as Hpos.
  assert (count_all l <= total_reads l) as Hle.
  { rewrite total_reads_sum. unfold count_all.
    rewrite <- (length_map read_count). apply zsum_lower.
    rewrite Forall_map. exact Hl. }
  assert (0 < count_all l) as Hc.
  { unfold count_all. destruct l; [congruence|]. simpl length. lia. }
  rewrite Hr, Ht, Ha, Hn. unfold rate.
  assert ((total_reads l >? 0) = true) as -> by (apply Z.gtb_lt; exact Hpos).
  split; [|split; [|split]].
  - apply Qlt_shift_div_l.
    + change 0%Q with (inject_Z 0). rewrite <- Zlt_Qlt. exact Hpos.
    + rewrite Qmult_0_l. change 0%Q with (inject_Z 0). rewrite <- Zlt_Qlt. exact Hc.
  - apply frac_le_1; assumption.
  - unfold count_novel, count_all. pose proof (filter_length_le is_novel_taxon l). lia.
  - exact Hle.
Qed.

Lemma assignment_rate_in_unit_interval_witness :
  exists m, compute scenario3 = Ok m /\ (assignment_rate m <= 1)%Q.
Proof.
  assert (scenario3 <> []) as Hne by discriminate.
  assert (Forall (fun a => 1 <= read_count a) scenario3) as Hl.
  { repeat constructor; simpl; lia. }
  destruct (assignment_rate_in_unit_interval scenario3 Hne Hl) as [m [Hm [_ [H _]]]].
  exists m. split; assumption.
Defined.

Lemma spread_nonneg (counts : list Z) (x : Z) :
  0 <= Z.of_nat (length counts) * (x * x) - 2 * x * zsum counts + zsquares counts.
Proof.
  induction counts as [|c rest IH]; simpl length; simpl zsum; simpl zsquares.
  - lia.
  - rewrite Nat2Z.inj_succ. pose proof (Z.square_nonneg (x - c)). nia.
Qed.

(** The squares of the counts against the square of their sum. *)
Lemma squares_against_length (counts : list Z) :
  zsum counts * zsum counts <= Z.of_nat (length counts) * zsquares counts.
Proof.
  induction counts as [|c rest IH]; simpl length; simpl zsum; simpl zsquares.
  - lia.
  - rewrite Nat2Z.inj_succ. pose proof (spread_nonneg rest c). nia.
Qed.

Lemma squares_of_several (counts : list Z) :
  Forall (fun c => 1 <= c) counts -> counts <> [] ->
  (zsquares counts = zsum counts * zsum counts <-> length counts = 1%nat).
Proof.
  intros Hc Hne. destruct Hc as [|c rest Hc Hrest]; [congruence|].
  simpl zsquares. simpl zsum. simpl length.
  pose proof (zsquares_bounds rest Hrest) as [_ Hb].
  pose proof (zsum_lower rest Hrest) as Hs.
  split.
  - intros E. destruct rest as [|c' rest']; [reflexivity|exfalso].
    simpl length in Hs. nia.
  - intros E. destruct rest; [simpl; lia|discriminate].
Qed.

(** The bound of X5 is one of exact arithmetic: 21 groups of one read
    give the double 0.95238095238095244, above [1 - 1/21]. *)
Lemma simpson_bound_in_doubles :
  match Doubles.value (Doubles.simpson (repeat 1 21) 21) with
  | Some D => (1 - 1 / 21 < D)%Q
  | None => False
  end.
Proof.
  vm_compute. reflexivity.
Qed.

(** X5.  In exact arithmetic (the floats idealised as rationals), for a
    non-empty assignment set whose read counts are all at least 1, the
    Simpson value [D] is at most [1 - 1/observed_otus], and it is 0
    exactly when there is a single group. *)
Theorem simpson_upper_bound (l : list TaxonomicAssignment) :
  l <> [] -> Forall (fun a => 1 <= read_count a) l ->
  exists D, simpson (species_counts l) (total_reads l) = Ok D
    /\ (D <= 1 - 1 / inject_Z (otus (species_counts l)))%Q
    /\ ((D == 0)%Q <-> otus (species_counts l) = 1).
Proof.
  intros Hne Hl.
  pose proof (total_reads_pos l Hne Hl) as Ht.
  pose proof (species_counts_lower 1 l ltac:(lia) Hl) as Hc.
  pose proof (species_counts_sum l) as Hsum.
  pose proof (species_counts_not_nil l Hne) as Hd.
  destruct (simpson_value l Hne Hl) as [s [Hs Es]].
  assert (values (species_counts l) <> []) as Hv.
  { unfold values. destruct (species_counts l); [congruence|discriminate]. }
  pose proof (squares_against_length (values (species_counts l))) as Hcs.
  pose proof (squares_of_several _ Hc Hv) as Hone.
  rewrite Hsum in Hcs, Hone.
  assert (length (values (species_counts l)) = length (species_counts l)) as Hlen
      by apply length_map.
  rewrite Hlen in Hcs, Hone.
  assert (0 < otus (species_counts l)) as Hn.
  { unfold otus. destruct (species_counts l); [congruence|]. simpl length. lia. }
  fold (otus (species_counts l)) in Hcs.
  set (T := total_reads l) in *. set (n := otus (species_counts l)) in *.
  set (S2 := zsquares (values (species_counts l))) in *.
  assert (~ (inject_Z T == 0)%Q) as HT by (apply inject_Z_nonzero; lia).
  assert (~ (inject_Z n == 0)%Q) as HN by (apply inject_Z_nonzero; lia).
  exists (1 - s)%Q. split; [exact Hs|]. split.
  - rewrite Es.
    assert (1 / inject_Z n <= inject_Z S2 / (inject_Z T * inject_Z T))%Q as H.
    { apply Qle_shift_div_l.
      - rewrite <- inject_Z_mult. change 0%Q with (inject_Z 0).
        rewrite <- Zlt_Qlt. nia.
      - setoid_replace (1 / inject_Z n * (inject_Z T * inject_Z T))%Q
          with ((inject_Z T * inject_Z T) / inject_Z n)%Q by (field; exact HN).
        apply Qle_shift_div_r.
        + change 0%Q with (inject_Z 0). rewrite <- Zlt_Qlt. exact Hn.
        + rewrite <- !inject_Z_mult, <- Zle_Qle. lia. }
    Lqa.lra.
  - rewrite Es. split.
    + intros E.
      assert (inject_Z S2 == inject_Z T * inject_Z T)%Q as E2.
      { assert (inject_Z S2 / (inject_Z T * inject_Z T) == 1)%Q as E1 by Lqa.lra.
        rewrite <- (Qmult_1_l (inject_Z T * inject_Z T)). rewrite <- E1.
        field. exact HT. }
      rewrite <- inject_Z_mult, inject_Z_injective in E2.
      apply Hone in E2. unfold n, otus. rewrite E2. reflexivity.
    + intros E. unfold n, otus in E.
      assert (length (species_counts l) = 1%nat) as E1 by lia.
      apply Hone in E1. rewrite E1, inject_Z_mult. field. exact HT.
Qed.

Lemma simpson_upper_bound_witness :
  exists D, simpson (species_counts scenario3) (total_reads scenario3) = Ok D
    /\ (D <= 2 # 3)%Q.
Proof.
  assert (scenario3 <> []) as Hne by discriminate.
  assert (Forall (fun a => 1 <= read_count a) scenario3) as Hl.
  { repeat constructor; simpl; lia. }
  destruct (simpson_upper_bound scenario3 Hne Hl) as [D [Hs [Hb _]]].
  exists D. split; [exact Hs|].
  eapply Qle_trans; [exact Hb|]. vm_compute. discriminate.
Defined.

Lemma ln_below_line (y : R) : (0 < y)%R -> (ln y <= y - 1)%R.
Proof.
  intros Hy. pose proof (exp_ineq1_le (ln y)) as H.
  rewrite exp_ln in H by exact Hy. Lra.lra.
Qed.

Lemma entropy_term_bound (p N : R) :
  (0 < p)%R -> (0 < N)%R -> (entropy_term p <= p * ln N + / N - p)%R.
Proof.
  intros Hp HN. unfold entropy_term.
  assert (0 < / (N * p))%R as Hy.
  { apply Rinv_0_lt_compat. apply Rmult_lt_0_compat; assumption. }
  pose proof (ln_below_line _ Hy) as H.
  rewrite ln_Rinv in H by (apply Rmult_lt_0_compat; assumption).
  rewrite ln_mult in H by assumption.
  apply (Rmult_le_compat_l p) in H; [|Lra.lra].
  replace (p * (/ (N * p) - 1))%R with (/ N - p)%R in H; [Lra.lra|].
  field. split; Lra.lra.
Qed.

Lemma entropy_bound (counts : list Z) (total : Z) (N : R) :
  (0 < N)%R -> Forall (fun c => 1 <= c <= total) counts ->
  (entropy counts total
   <= IZR (zsum counts) / IZR total * ln N + INR (length counts) / N
      - IZR (zsum counts) / IZR total)%R.
Proof.
  intros HN. induction 1 as [|c rest Hc Hrest IH].
  - simpl. unfold Rdiv. rewrite !Rmult_0_l. Lra.lra.
  - simpl entropy. simpl zsum. simpl length. rewrite plus_IZR, S_INR.
    pose proof (proportion_range c total Hc) as [Hp _].
    pose proof (entropy_term_bound _ N Hp HN) as Ht.
    unfold Rdiv in *. Lra.nra.
Qed.

(** X6.  For a non-empty assignment set whose read counts are all at
    least 1, the Shannon value lies between 0 and the logarithm of the
    number of observed OTUs. *)
Theorem shannon_bounds (l : list TaxonomicAssignment) :
  l <> [] -> Forall (fun a => 1 <= read_count a) l ->
  exists H, shannon (species_counts l) (total_reads l) = Ok H
    /\ (0 <= H)%R /\ (H <= ln (IZR (otus (species_counts l))))%R.
Proof.
  intros Hne Hl.
  pose proof (total_reads_pos l Hne Hl) as Ht.
  pose proof (species_counts_lower 1 l ltac:(lia) Hl) as Hc.
  pose proof (species_counts_sum l) as Hsum.
  pose proof (species_counts_not_nil l Hne) as Hd.
  pose proof (zsum_upper _ Hc) as Hup. rewrite Hsum in Hup.
  exists (entropy (values (species_counts l)) (total_reads l)).
  split; [apply shannon_value; assumption|]. split.
  - apply entropy_nonneg. exact Hup.
  - assert (0 < otus (species_counts l)) as Hn.
    { unfold otus. destruct (species_counts l); [congruence|]. simpl length. lia. }
    assert (0 < IZR (otus (species_counts l)))%R as HN by (apply IZR_lt; exact Hn).
    pose proof (entropy_bound _ _ _ HN Hup) as Hb.
    rewrite Hsum in Hb. unfold values in Hb at 2. rewrite length_map in Hb.
    unfold otus in Hb at 2. rewrite <- INR_IZR_INZ in Hb.
    assert (IZR (total_reads l) / IZR (total_reads l) = 1)%R as E1.
    { apply proportion_one; [exact Ht|reflexivity]. }
    assert (INR (length (species_counts l)) / IZR (otus (species_counts l)) = 1)%R as E2.
    { unfold otus. rewrite <- INR_IZR_INZ. unfold Rdiv. apply Rinv_r.
      unfold otus in HN. rewrite <- INR_IZR_INZ in HN. Lra.lra. }
    unfold otus in E2 at 1. unfold otus in Hb.
    rewrite <- INR_IZR_INZ in *.
    rewrite E1 in Hb. unfold otus. rewrite <- INR_IZR_INZ. Lra.lra.
Qed.

Lemma shannon_bounds_witness :
  exists H, shannon (species_counts scenario3) (total_reads scenario3) = Ok H
    /\ (0 <= H)%R /\ (H <= ln 3)%R.
Proof.
  assert (scenario3 <> []) as Hne by discriminate.
  assert (Forall (fun a => 1 <= read_count a) scenario3) as Hl.
  { repeat constructor; simpl; lia. }
  destruct (shannon_bounds scenario3 Hne Hl) as [H [Hs [H0 H1]]].
  exists H. repeat split; assumption.
Defined.

End MetricsExtra.

(** ** Further facts about the tasks *)

Module TaskExtra.
Import Metrics Closed Query Orm PyRandom Tasks GroupingFacts MetricsFacts
       MetricsExtra TaskFacts Fixtures Cases.

(** *** The metrics table *)

Lemma upsert_find (k : Z) (m : BiodiversityMetrics) (rows : list (Z * BiodiversityMetrics)) :
  find (fun row => fst row =? k) (upsert k m rows) = Some (k, m).
Proof.
  induction rows as [|[k' m'] rows IH]; simpl.
  - rewrite Z.eqb_refl. reflexivity.
  - destruct (k' =? k) eqn:E; simpl; rewrite E; [|exact IH].
    apply Z.eqb_eq in E. subst k'. reflexivity.
Qed.

Lemma upsert_find_other (k k' : Z) (m : BiodiversityMetrics)
      (rows : list (Z * BiodiversityMetrics)) :
  k' <> k ->
  find (fun row => fst row =? k') (upsert k m rows)
  = find (fun row => fst row =? k') rows.
Proof.
  intros Hne. induction rows as [|[k0 m0] rows IH]; simpl.
  - apply not_eq_sym, Z.eqb_neq in Hne. rewrite Hne. reflexivity.
  - destruct (k0 =? k) eqn:E; simpl.
    + apply Z.eqb_eq in E. subst k0. apply not_eq_sym, Z.eqb_neq in Hne.
      rewrite Hne. reflexivity.
    + destruct (k0 =? k'); [reflexivity|exact IH].
Qed.

Lemma upsert_idempotent (k : Z) (m : BiodiversityMetrics)
      (rows : list (Z * BiodiversityMetrics)) :
  upsert k m (upsert k m rows) = upsert k m rows.
Proof.
  induction rows as [|[k' m'] rows IH]; simpl.
  - rewrite Z.eqb_refl. reflexivity.
  - destruct (k' =? k) eqn:E; simpl; rewrite E; [reflexivity|].
    rewrite IH. reflexivity.
Qed.

Lemma upsert_keys_in (k k' : Z) (m : BiodiversityMetrics)
      (rows : list (Z * BiodiversityMetrics)) :
  In k' (map fst (upsert k m rows)) <-> k' = k \/ In k' (map fst rows).
Proof.
  induction rows as [|[k0 m0] rows IH]; simpl.
  - intuition.
  - destruct (k0 =? k) eqn:E; simpl.
    + apply Z.eqb_eq in E. subst k0. intuition.
    + rewrite IH. intuition.
Qed.

Lemma upsert_nodup (k : Z) (m : BiodiversityMetrics)
      (rows : list (Z * BiodiversityMetrics)) :
  NoDup (map fst rows) -> NoDup (map fst (upsert k m rows)).
Proof.
  induction rows as [|[k0 m0] rows IH]; simpl; intros H.
  - constructor; [intros []|constructor].
  - inversion H as [|? ? Hnot Hd]; subst.
    destruct (k0 =? k) eqn:E; simpl.
    + constructor; assumption.
    + constructor; [|apply IH; exact Hd].
      intros Hin. apply upsert_keys_in in Hin. apply Z.eqb_neq in E.
      destruct Hin as [E'|Hin]; [congruence|contradiction].
Qed.

(** *** [calculate_biodiversity_metrics] *)

(** The task, with its exception handlers resolved. *)
Lemma calculate_eq (sample_pk : Z) (w : World) :
  calculate_biodiversity_metrics sample_pk w
  = match find (fun s => pk s =? sample_pk) (samples (db w)) with
    | None => (Ok (SampleNotFound sample_pk), w)
    | Some s =>
        match assignments_of s (db w) with
        | [] => (Ok (ErrorMessage "No taxonomic assignments found for sample"), w)
        | a :: l =>
            match compute (a :: l) with
            | Ok m =>
                (Ok (MetricsDone sample_pk (shannon_diversity m) (simpson_diversity m)
                                 (observed_otus m) (total_sequences m)),
                 with_db (fun d => set_metrics (upsert (pk s) m (biodiversity_metrics d)) d) w)
            | Raise e => on_error sample_pk e w
            end
        end
    end.
Proof.
  unfold calculate_biodiversity_metrics, try_except, calculate_body, mbind,
    get_sample, all_assignments, lift.
  destruct (find (fun s => pk s =? sample_pk) (samples (db w))) as [s|];
    [|reflexivity].
  destruct (assignments_of s (db w)) as [|a l]; [reflexivity|].
  simpl exists_. simpl negb. cbv iota.
  destruct (compute (a :: l)) as [m|e]; reflexivity.
Qed.

Lemma on_error_eq (sample_pk : Z) (e : pyexn) (w : World) :
  exists r, on_error sample_pk e w = (Ok r, w).
Proof. destruct e; eexists; reflexivity. Qed.

(** X7.  For a sample that does not exist both tasks return the
    dictionary of "Sample ... not found" and leave the whole state as it
    was; [process_sequence_file] does not even draw a random number. *)
Theorem missing_sample_is_reported (sample_pk : Z) (file_path : string) (w : World) :
  find (fun s => pk s =? sample_pk) (samples (db w)) = None ->
  calculate_biodiversity_metrics sample_pk w = (Ok (SampleNotFound sample_pk), w)
  /\ process_sequence_file sample_pk file_path w = (Ok (SampleNotFound sample_pk), w).
Proof.
  intros H. rewrite calculate_eq, process_sequence_file_eq, H. split; reflexivity.
Qed.

Lemma missing_sample_is_reported_witness :
  calculate_biodiversity_metrics 7 fresh_world = (Ok (SampleNotFound 7), fresh_world)
  /\ process_sequence_file 7 "/temp/S7.fastq" fresh_world
     = (Ok (SampleNotFound 7), fresh_world).
Proof.
  apply (missing_sample_is_reported 7 "/temp/S7.fastq" fresh_world). reflexivity.
Defined.

(** X8.  The guards on [total_reads] protect the rate and the
    percentages only: when the read counts of a sample sum to 0 while some
    group has a positive total, the Shannon loop divides by zero, the task
    returns the error dictionary of [ZeroDivisionError] and stores no
    metrics. *)
Theorem cancelling_reads_divide_by_zero (sample_pk : Z) (s : Sample) (w : World) :
  find (fun s => pk s =? sample_pk) (samples (db w)) = Some s ->
  total_reads (assignments_of s (db w)) = 0 ->
  Exists (fun c => 0 < c) (values (species_counts (assignments_of s (db w)))) ->
  compute (assignments_of s (db w)) = Raise ZeroDivisionError
  /\ calculate_biodiversity_metrics sample_pk w = (Ok (ErrorOf ZeroDivisionError), w).
Proof.
  intros Hs Ht Hc.
  assert (compute (assignments_of s (db w)) = Raise ZeroDivisionError) as Hr.
  { unfold compute, shannon. rewrite Ht.
    rewrite (shannon_loop_raises _ Hc). reflexivity. }
  split; [exact Hr|].
  rewrite calculate_eq, Hs.
  destruct (assignments_of s (db w)) as [|a l] eqn:E.
  - inversion Hc.
  - rewrite Hr. reflexivity.
Qed.

Lemma cancelling_reads_divide_by_zero_witness :
  calculate_biodiversity_metrics 1 (holding cancelling)
  = (Ok (ErrorOf ZeroDivisionError), holding cancelling).
Proof.
  apply (cancelling_reads_divide_by_zero 1 (mkSample 1 "S1") (holding cancelling)).
  - reflexivity.
  - reflexivity.
  - apply Exists_cons_hd. reflexivity.
Defined.

Lemma integer_columns_fit (l : list TaxonomicAssignment) (m : BiodiversityMetrics) :
  Forall (fun a => 1 <= read_count a) l ->
  compute l = Ok m ->
  integer_field (total_reads l) ->
  integer_field (observed_otus m) /\ integer_field (total_sequences m)
  /\ integer_field (assigned_sequences m) /\ integer_field (novel_sequences m).
Proof.
  intros Hl Hm Hfit.
  pose proof (compute_fields l m Hm)
    as [_ [_ [_ [Hobs [Htot [Hass [Hnov _]]]]]]].
  assert (Z.of_nat (length l) <= total_reads l) as Hlen.
  { rewrite total_reads_sum, <- (length_map read_count l).
    apply zsum_lower. rewrite Forall_map. exact Hl. }
  assert (otus (species_counts l) <= total_reads l) as Hotus.
  { rewrite <- species_counts_sum. unfold otus.
    rewrite <- (length_map snd (species_counts l)).
    apply zsum_lower, (species_counts_lower 1 l); [lia|exact Hl]. }
  assert (count_novel l <= Z.of_nat (length l)) as Hn.
  { unfold count_novel. apply inj_le, filter_length_le. }
  unfold integer_field in *. rewrite Hobs, Htot, Hass, Hnov.
  unfold otus, count_all, count_novel in *. lia.
Qed.

(** X9.  On a sample with at least one assignment, read counts all at
    least 1 and a read total within the range of an [IntegerField], the
    task succeeds: the four integer columns it computes are within that
    range, it reports the computed values and the sample's metrics record
    then holds them, whether the record existed before or not; the records
    of the other samples are untouched. *)
Theorem calculate_stores_the_metrics (sample_pk : Z) (s : Sample) (w : World) :
  find (fun s => pk s =? sample_pk) (samples (db w)) = Some s ->
  assignments_of s (db w) <> [] ->
  Forall (fun a => 1 <= read_count a) (assignments_of s (db w)) ->
  integer_field (total_reads (assignments_of s (db w))) ->
  exists m w',
    compute (assignments_of s (db w)) = Ok m
    /\ integer_field (observed_otus m) /\ integer_field (total_sequences m)
    /\ integer_field (assigned_sequences m) /\ integer_field (novel_sequences m)
    /\ calculate_biodiversity_metrics sample_pk w
       = (Ok (MetricsDone sample_pk (shannon_diversity m) (simpson_diversity m)
                          (observed_otus m) (total_sequences m)), w')
    /\ metrics_of sample_pk (db w') = Some m
    /\ (forall other, other <> sample_pk ->
          metrics_of other (db w') = metrics_of other (db w)).
Proof.
  intros Hs Hne Hl Hfit.
  destruct (compute_succeeds _ Hne Hl) as [m Hm].
  destruct (integer_columns_fit _ m Hl Hm Hfit) as [F1 [F2 [F3 F4]]].
  assert (pk s = sample_pk) as Hpk.
  { apply find_some in Hs. destruct Hs as [_ Hs]. apply Z.eqb_eq. exact Hs. }
  exists m. eexists. split; [exact Hm|].
  split; [exact F1|]. split; [exact F2|]. split; [exact F3|]. split; [exact F4|].
  split.
  - rewrite calculate_eq, Hs.
    destruct (assignments_of s (db w)) as [|a l]; [congruence|].
    rewrite Hm. reflexivity.
  - unfold metrics_of. simpl. rewrite Hpk. split.
    + rewrite upsert_find. reflexivity.
    + intros other Hother. rewrite upsert_find_other by exact Hother. reflexivity.
Qed.

Lemma calculate_stores_the_metrics_witness :
  exists m, metrics_of 1 (db (snd (calculate_biodiversity_metrics 1 (holding scenario3))))
            = Some m
            /\ total_sequences m = 4.
Proof.
  destruct (calculate_stores_the_metrics 1 (mkSample 1 "S1") (holding scenario3))
    as [m [w' [Hm [_ [_ [_ [_ [Hrun [Hget _]]]]]]]]].
  - reflexivity.
  - discriminate.
  - repeat constructor; simpl; lia.
  - vm_compute. split; discriminate.
  - exists m. rewrite Hrun. split; [exact Hget|].
    apply compute_fields in Hm. destruct Hm as [_ [_ [_ [_ [Ht _]]]]].
    rewrite Ht. reflexivity.
Defined.

Lemma calculate_twice (sample_pk : Z) (w : World) :
  calculate_biodiversity_metrics sample_pk
    (snd (calculate_biodiversity_metrics sample_pk w))
  = calculate_biodiversity_metrics sample_pk w.
Proof.
  rewrite (calculate_eq sample_pk w).
  destruct (find (fun s => pk s =? sample_pk) (samples (db w))) as [s|] eqn:Hs.
  - destruct (assignments_of s (db w)) as [|a l] eqn:Ha.
    + simpl snd. rewrite calculate_eq, Hs, Ha. reflexivity.
    + destruct (compute (a :: l)) as [m|e] eqn:Hm.
      * simpl snd. rewrite calculate_eq. simpl. rewrite Hs.
        unfold assignments_of in *. simpl. rewrite Ha, Hm.
        unfold with_db, set_metrics. simpl. rewrite upsert_idempotent. reflexivity.
      * destruct (on_error_eq sample_pk e w) as [r Hr]. rewrite Hr. simpl snd.
        rewrite calculate_eq, Hs, Ha, Hm. exact Hr.
  - simpl snd. rewrite calculate_eq, Hs. reflexivity.
Qed.

Lemma touch_find (s now : Z) (d : Dated.dates) :
  Dated.calculation_date s (Dated.touch s now d) = Some now.
Proof.
  unfold Dated.calculation_date. induction d as [|[s' t] d IH]; simpl.
  - rewrite Z.eqb_refl. reflexivity.
  - destruct (s' =? s) eqn:E; simpl; rewrite E; [reflexivity|exact IH].
Qed.

Lemma touch_find_other (s other now : Z) (d : Dated.dates) :
  other <> s ->
  Dated.calculation_date other (Dated.touch s now d) = Dated.calculation_date other d.
Proof.
  intros Hne. unfold Dated.calculation_date. induction d as [|[s' t] d IH]; simpl.
  - assert ((s =? other) = false) as -> by (apply Z.eqb_neq; congruence). reflexivity.
  - destruct (s' =? s) eqn:E; simpl.
    + apply Z.eqb_eq in E. subst s'.
      assert ((s =? other) = false) as -> by (apply Z.eqb_neq; congruence).
      reflexivity.
    + destruct (s' =? other); [reflexivity|exact IH].
Qed.

(** X10.  Run a second time right after the first, the task returns the
    same dictionary and leaves the samples, the assignments, the queue
    and the computed columns of every metrics record as the first run
    left them.  The one column of the record it changes is
    [calculation_date]: when the runs store a record, the date of the
    sample's record is the time of the second run, not of the first; the
    dates of the other records stay, and a run that stores nothing leaves
    every date. *)
Theorem calculate_is_idempotent (sample_pk t1 t2 : Z) (w : World) (d : Dated.dates) :
  let first := Dated.calculate_at t1 sample_pk (w, d) in
  let second := Dated.calculate_at t2 sample_pk (snd first) in
  fst second = fst first
  /\ fst (snd second) = fst (snd first)
  /\ (Dated.saved (fst first) = true ->
      Dated.calculation_date sample_pk (snd (snd first)) = Some t1
      /\ Dated.calculation_date sample_pk (snd (snd second)) = Some t2)
  /\ (forall other, other <> sample_pk ->
        Dated.calculation_date other (snd (snd second))
        = Dated.calculation_date other d)
  /\ (Dated.saved (fst first) = false -> snd (snd second) = d).
Proof.
  intros first second. unfold second, first, Dated.calculate_at. cbn [fst snd].
  rewrite !calculate_twice.
  destruct (Dated.saved (fst (calculate_biodiversity_metrics sample_pk w))).
  - split; [reflexivity|]. split; [reflexivity|]. split; [|split].
    + intros _. split; apply touch_find.
    + intros other Hother. rewrite !touch_find_other by exact Hother. reflexivity.
    + discriminate.
  - split; [reflexivity|]. split; [reflexivity|]. split; [discriminate|].
    split; reflexivity.
Qed.

Lemma calculate_is_idempotent_witness :
  let first := Dated.calculate_at 10 1 (holding scenario3, []) in
  let second := Dated.calculate_at 20 1 (snd first) in
  Dated.calculation_date 1 (snd (snd first)) = Some 10
  /\ Dated.calculation_date 1 (snd (snd second)) = Some 20.
Proof.
  destruct (calculate_is_idempotent 1 10 20 (holding scenario3) []) as [_ [_ [H _]]].
  apply H. vm_compute. reflexivity.
Defined.

(** X11.  Whatever its outcome, the task touches nothing but the metrics
    table, and it keeps that table at one record per sample. *)
Theorem calculate_keeps_one_record_per_sample (sample_pk : Z) (w : World) :
  let w' := snd (calculate_biodiversity_metrics sample_pk w) in
  samples (db w') = samples (db w)
  /\ taxonomic_assignments (db w') = taxonomic_assignments (db w)
  /\ queue (db w') = queue (db w)
  /\ rng w' = rng w
  /\ (NoDup (map fst (biodiversity_metrics (db w))) ->
      NoDup (map fst (biodiversity_metrics (db w')))).
Proof.
  rewrite calculate_eq.
  destruct (find (fun s => pk s =? sample_pk) (samples (db w))) as [s|];
    [|simpl; repeat split; auto].
  destruct (assignments_of s (db w)) as [|a l]; [simpl; repeat split; auto|].
  destruct (compute (a :: l)) as [m|e].
  - simpl. repeat split. apply upsert_nodup.
  - destruct (on_error_eq sample_pk e w) as [r Hr]. rewrite Hr. simpl.
    repeat split; auto.
Qed.

(** *** [process_sequence_file]: what a run changes *)

Lemma same_key_iff (a b : TaxonomicAssignment) :
  same_key a b = true <-> unique_key a = unique_key b.
Proof.
  unfold same_key, unique_key. rewrite andb_true_iff, Z.eqb_eq, String.eqb_eq.
  split; [intros [-> ->]; reflexivity|intros E; injection E; auto].
Qed.

Lemma nodup_snoc {A : Type} (l : list A) (x : A) :
  NoDup l -> ~ In x l -> NoDup (l ++ [x]).
Proof.
  induction 1 as [|y l Hy Hl IH]; intros Hx; simpl.
  - constructor; [intros []|constructor].
  - constructor.
    + intros Hin. apply in_app_or in Hin. destruct Hin as [Hin|[E|[]]].
      * contradiction.
      * apply Hx. left. symmetry. exact E.
    + apply IH. intros Hin. apply Hx. right. exact Hin.
Qed.

Lemma create_keeps_unique (a : TaxonomicAssignment) (w : World) :
  NoDup (map unique_key (taxonomic_assignments (db w))) ->
  NoDup (map unique_key (taxonomic_assignments (db (snd (create a w))))).
Proof.
  intros H. destruct (create_cases a w) as [[_ E]|[Hex E]]; rewrite E; simpl.
  - exact H.
  - rewrite map_app. simpl. apply nodup_snoc; [exact H|].
    intros Hin. apply in_map_iff in Hin. destruct Hin as [b [Hk Hb]].
    assert (existsb (same_key a) (taxonomic_assignments (db w)) = true) as Ht.
    { apply existsb_exists. exists b. split; [exact Hb|].
      apply same_key_iff. symmetry. exact Hk. }
    congruence.
Qed.

Lemma simulate_loop_keeps_unique (s : Sample) (n : nat) :
  forall (i : nat) (cnt : Z) (w : World),
    NoDup (map unique_key (taxonomic_assignments (db w))) ->
    NoDup (map unique_key
               (taxonomic_assignments (db (snd (simulate_loop s i n cnt w))))).
Proof.
  induction n as [|n IH]; intros i cnt w H; [exact H|].
  simpl simulate_loop. unfold mbind.
  pose proof (create_keeps_unique
                (drawn_row s (variates (rng w)) i (cursor (rng w))) (advance 5 w) H)
    as Hc.
  rewrite <- simulate_one_eq in Hc.
  destruct (simulate_one s i w) as [[a|e] w1]; simpl in Hc.
  - apply IH. exact Hc.
  - exact Hc.
Qed.

(** X12.  Whatever its outcome, a run of [process_sequence_file] keeps
    the samples and the metrics, only appends to the assignment table,
    keeps [(sample, sequence_id)] unique in it, and queues the metrics
    task exactly when it completes. *)
Theorem process_only_appends (sample_pk : Z) (file_path : string) (w : World) :
  let r := fst (process_sequence_file sample_pk file_path w) in
  let w' := snd (process_sequence_file sample_pk file_path w) in
  samples (db w') = samples (db w)
  /\ biodiversity_metrics (db w') = biodiversity_metrics (db w)
  /\ variates (rng w') = variates (rng w)
  /\ (exists rows, taxonomic_assignments (db w')
                   = (taxonomic_assignments (db w) ++ rows)%list)
  /\ (NoDup (map unique_key (taxonomic_assignments (db w))) ->
      NoDup (map unique_key (taxonomic_assignments (db w'))))
  /\ queue (db w')
     = match r with
       | Ok (FileProcessed _ _ _) =>
           (queue (db w) ++ [CalculateBiodiversityMetrics sample_pk])%list
       | _ => queue (db w)
       end.
Proof.
  rewrite process_sequence_file_eq.
  destruct (find (fun s => pk s =? sample_pk) (samples (db w))) as [s|].
  - pose proof (simulate_loop_keeps_unique s (Z.to_nat (iterations w)) 0 0
                                           (advance 1 w)) as Hu.
    destruct (simulate_loop s 0 (Z.to_nat (iterations w)) 0 (advance 1 w))
      as [r1 w1] eqn:L.
    apply simulate_loop_appends in L.
    destruct L as [k [Hrows [Hs [Hm [Hq [Hv _]]]]]].
    simpl in Hu, Hrows, Hs, Hm, Hq, Hv.
    destruct r1 as [c|e].
    + simpl. rewrite Hs, Hm, Hv, Hq. repeat split; auto.
      exists (drawn_rows s (variates (rng w)) 0 (S (cursor (rng w))) k). exact Hrows.
    + destruct e; simpl; rewrite Hs, Hm, Hv, Hq; repeat split; auto;
        exists (drawn_rows s (variates (rng w)) 0 (S (cursor (rng w))) k); exact Hrows.
  - simpl. repeat split; auto. exists []. rewrite List.app_nil_r. reflexivity.
Qed.

Lemma taxon_choice_in (u : Q) :
  (0 <= u)%Q -> (u < 1)%Q ->
  In (nth (Z.to_nat (Qfloor (u * inject_Z (Z.of_nat (length sample_taxa)))))
          sample_taxa (mkTaxon "" "" "" ""))
     sample_taxa.
Proof.
  intros H0 H1. apply nth_In.
  pose proof (scaled_floor_range u (Z.of_nat (length sample_taxa)) H0 H1
                                 ltac:(simpl; lia)) as Hr.
  lia.
Qed.

(** X13.  Under a generator that yields variates of [[0, 1)], every row
    a run stores belongs to the sample requested (when it exists), has a
    read count between 1 and 50, carries kingdom, phylum, genus and species
    of one of the four entries of [sample_taxa], and leaves class, order
    and family null. *)
Theorem stored_rows_are_sampled (sample_pk : Z) (file_path : string) (w : World) :
  unit_interval (rng w) ->
  exists rows,
    taxonomic_assignments (db (snd (process_sequence_file sample_pk file_path w)))
    = (taxonomic_assignments (db w) ++ rows)%list
    /\ Forall (fun a =>
                 sample a = sample_pk
                 /\ 1 <= read_count a <= 50
                 /\ (exists t, In t sample_taxa
                               /\ kingdom a = t_kingdom t
                               /\ phylum a = Some (t_phylum t)
                               /\ genus a = Some (t_genus t)
                               /\ species a = Some (t_species t))
                 /\ class_name a = None /\ order a = None /\ family a = None)
              rows.
Proof.
  intros Hu. rewrite process_sequence_file_eq.
  destruct (find (fun s => pk s =? sample_pk) (samples (db w))) as [s|] eqn:Hs.
  - assert (pk s = sample_pk) as Hpk.
    { apply find_some in Hs. destruct Hs as [_ Hs]. apply Z.eqb_eq. exact Hs. }
    destruct (simulate_loop s 0 (Z.to_nat (iterations w)) 0 (advance 1 w))
      as [r1 w1] eqn:L.
    apply simulate_loop_appends in L. destruct L as [k [Hrows _]].
    exists (drawn_rows s (variates (rng w)) 0 (S (cursor (rng w))) k). split.
    + destruct r1 as [c|e]; [exact Hrows|rewrite on_error_world; exact Hrows].
    + apply Forall_forall. intros a Ha.
      apply In_nth_error in Ha. destruct Ha as [j Hj].
      apply nth_drawn_rows in Hj. subst a.
      set (p := (5 * j + S (cursor (rng w)))%nat).
      destruct (Hu p) as [Hp0 Hp1]. destruct (Hu (3 + p)%nat) as [Hr0 Hr1].
      pose proof (scaled_floor_range _ (50 - 1 + 1) Hr0 Hr1 ltac:(lia)) as Hr.
      unfold drawn_row, simulated.
      cbn [sample read_count kingdom phylum genus species class_name order family].
      split; [exact Hpk|]. split; [lia|]. split; [|auto].
      eexists. split; [apply (taxon_choice_in _ Hp0 Hp1)|]. auto.
  - exists []. simpl. rewrite List.app_nil_r. split; [reflexivity|constructor].
Qed.

Lemma stored_rows_are_sampled_witness :
  exists rows,
    taxonomic_assignments processed = (taxonomic_assignments one_sample ++ rows)%list
    /\ Forall (fun a => 1 <= read_count a <= 50) rows.
Proof.
  assert (unit_interval (rng fresh_world)) as Hu.
  { intros n. split; [discriminate|reflexivity]. }
  destruct (stored_rows_are_sampled 1 "/temp/S1.fastq" fresh_world Hu)
    as [rows [Hrows Hall]].
  exists rows. split; [exact Hrows|].
  eapply Forall_impl; [|exact Hall]. simpl. intros a Ha. apply Ha.
Defined.

(** *** Sequence identifiers *)

Lemma four_characters_below (bound : nat) :
  forallb (fun i => Nat.eqb (String.length (format_04d i)) 4) (seq 0 bound) = true ->
  forall i, (i < bound)%nat -> String.length (format_04d i) = 4%nat.
Proof.
  intros H i Hi. rewrite forallb_forall in H.
  apply Nat.eqb_eq. apply H. apply in_seq. lia.
Qed.

(** X14.  The index written by [{i:04d}] is read back unchanged, so the
    identifiers [seq_{sample_id}_{i:04d}] of different iterations differ;
    below 10000 the index takes exactly four characters. *)
Theorem sequence_ids_are_distinct (s : Sample) (i j : nat) :
  parse_04d (format_04d i) = Some i
  /\ (make_sequence_id s i = make_sequence_id s j <-> i = j)
  /\ (Z.of_nat i < 10000 -> String.length (format_04d i) = 4%nat).
Proof.
  split; [apply parse_format|]. split.
  - split; [apply make_sequence_id_inj|intros ->; reflexivity].
  - intros Hi. apply (four_characters_below (Z.to_nat 10000)).
    + vm_compute. reflexivity.
    + lia.
Qed.

(** *** A run stopped by a row that is already there *)

Lemma simulate_loop_blocked (s : Sample) (k : nat) (n : nat) :
  forall (i : nat) (cnt : Z) (w : World),
    (i <= k < i + n)%nat ->
    (forall a, In a (taxonomic_assignments (db w)) -> sample a = pk s ->
               exists j, ((j < i)%nat \/ j = k) /\ sequence_id a = make_sequence_id s j) ->
    (exists a, In a (taxonomic_assignments (db w))
               /\ sample a = pk s /\ sequence_id a = make_sequence_id s k) ->
    exists w',
      simulate_loop s i n cnt w = (Raise IntegrityError, w')
      /\ taxonomic_assignments (db w')
         = (taxonomic_assignments (db w)
            ++ drawn_rows s (variates (rng w)) i (cursor (rng w)) (k - i))%list
      /\ queue (db w') = queue (db w).
Proof.
  induction n as [|n IH]; intros i cnt w Hk Hinv Hex; [lia|].
  simpl simulate_loop.
  set (row := drawn_row s (variates (rng w)) i (cursor (rng w))).
  destruct (Nat.eq_dec i k) as [->|Hne].
  - assert (existsb (same_key row) (taxonomic_assignments (db (advance 5 w))) = true)
      as Hdup.
    { destruct Hex as [a [Ha [Hs Hid]]]. apply existsb_exists. exists a.
      split; [exact Ha|]. unfold same_key, row, drawn_row, simulated.
      cbn [sample sequence_id]. rewrite Hs, Hid, Z.eqb_refl, String.eqb_refl.
      reflexivity. }
    pose proof (create_duplicate row (advance 5 w) Hdup) as E.
    rewrite (mbind_raise (simulate_one s k) _ w _ _ E).
    eexists. split; [reflexivity|]. rewrite Nat.sub_diag. simpl.
    rewrite List.app_nil_r. split; reflexivity.
  - assert (existsb (same_key row) (taxonomic_assignments (db (advance 5 w))) = false)
      as Hfresh.
    { destruct (existsb _ _) eqn:E; [exfalso|reflexivity].
      apply existsb_exists in E. destruct E as [a [Ha Hkey]].
      unfold same_key in Hkey. apply andb_true_iff in Hkey. destruct Hkey as [Hs Hid].
      apply Z.eqb_eq in Hs. apply String.eqb_eq in Hid.
      destruct (Hinv a Ha (eq_sym Hs)) as [j [Hj Hseq]].
      unfold row, drawn_row, simulated in Hid. cbn [sequence_id] in Hid.
      rewrite Hseq in Hid. apply make_sequence_id_inj in Hid. lia. }
    destruct (create_cases row (advance 5 w)) as [[E _]|[_ E]]; [congruence|].
    rewrite (mbind_ok (simulate_one s i) _ w _ _ E).
    match goal with
    | |- context [simulate_loop s (S i) n ?c ?w2] =>
        destruct (IH (S i) c w2) as [w' [Hrun [Hrows Hq]]]
    end.
    + lia.
    + intros a Ha Hs. simpl in Ha. apply in_app_or in Ha.
      destruct Ha as [Ha|[<-|[]]].
      * destruct (Hinv a Ha Hs) as [j [Hj Hid]]. exists j. split; [lia|exact Hid].
      * exists i. split; [lia|reflexivity].
    + destruct Hex as [a [Ha Hrest]]. exists a. split; [|exact Hrest].
      simpl. apply in_or_app. left. exact Ha.
    + exists w'. split; [exact Hrun|]. split; [|exact Hq].
      rewrite Hrows. simpl. rewrite <- List.app_assoc. simpl.
      replace (k - i)%nat with (S (k - S i)) by lia. reflexivity.
Qed.

(** X22.  A refused insert does not undo the inserts made before it.
    When the only assignment of the sample is the one with the identifier
    of iteration [k], a run that draws more than [k] iterations stores the
    rows of iterations 0 to [k - 1], stops at iteration [k] with the error
    dictionary of [IntegrityError], leaves those [k] rows in the table and
    queues no metrics task. *)
Theorem refused_run_keeps_earlier_rows (sample_pk : Z) (file_path : string)
        (s : Sample) (w : World) (k : nat) (existing : TaxonomicAssignment) :
  find (fun s => pk s =? sample_pk) (samples (db w)) = Some s ->
  assignments_of s (db w) = [existing] ->
  sequence_id existing = make_sequence_id s k ->
  (k < Z.to_nat (iterations w))%nat ->
  let run := process_sequence_file sample_pk file_path w in
  fst run = Ok (ErrorOf IntegrityError)
  /\ taxonomic_assignments (db (snd run))
     = (taxonomic_assignments (db w)
        ++ drawn_rows s (variates (rng w)) 0 (S (cursor (rng w))) k)%list
  /\ queue (db (snd run)) = queue (db w).
Proof.
  intros Hs Hone Hid Hk run. unfold run.
  assert (forall a, In a (taxonomic_assignments (db w)) -> sample a = pk s ->
                    a = existing) as Honly.
  { intros a Ha Hsa.
    assert (In a (assignments_of s (db w))) as Hin.
    { unfold assignments_of. apply filter_In. split; [exact Ha|].
      apply Z.eqb_eq. exact Hsa. }
    rewrite Hone in Hin. destruct Hin as [E|[]]. symmetry. exact E. }
  assert (In existing (taxonomic_assignments (db w)) /\ sample existing = pk s)
    as [Hin Hsample].
  { assert (In existing (assignments_of s (db w))) as H by (rewrite Hone; left; reflexivity).
    unfold assignments_of in H. apply filter_In in H. destruct H as [H1 H2].
    split; [exact H1|apply Z.eqb_eq; exact H2]. }
  destruct (simulate_loop_blocked s k (Z.to_nat (iterations w)) 0 0 (advance 1 w))
    as [w' [Hrun [Hrows Hq]]].
  - lia.
  - intros a Ha Hsa. exists k. split; [right; reflexivity|].
    rewrite (Honly a Ha Hsa). exact Hid.
  - exists existing. repeat split; assumption.
  - rewrite process_sequence_file_eq, Hs, Hrun. simpl.
    rewrite Nat.sub_0_r in Hrows. split; [reflexivity|]. split; assumption.
Qed.

Lemma refused_run_keeps_earlier_rows_witness :
  let w := holding [of_species "seq_S1_0002" "A" 1] in
  fst (process_sequence_file 1 "/temp/S1.fastq" w) = Ok (ErrorOf IntegrityError)
  /\ length (taxonomic_assignments
               (db (snd (process_sequence_file 1 "/temp/S1.fastq" w)))) = 3%nat.
Proof.
  intros w.
  destruct (refused_run_keeps_earlier_rows 1 "/temp/S1.fastq" (mkSample 1 "S1") w 2
              (of_species "seq_S1_0002" "A" 1))
    as [Hr [Hrows _]].
  - reflexivity.
  - reflexivity.
  - reflexivity.
  - vm_compute. lia.
  - split; [exact Hr|]. rewrite Hrows. reflexivity.
Defined.

(** *** A first run and the metrics that follow *)

Lemma drawn_rows_length (s : Sample) (v : nat -> Q) (k : nat) :
  forall i p, length (drawn_rows s v i p k) = k.
Proof. induction k as [|k IH]; intros i p; simpl; [reflexivity|]. now rewrite IH. Qed.

Lemma drawn_rows_all (P : TaxonomicAssignment -> Prop) (s : Sample) (v : nat -> Q) :
  (forall i p, P (drawn_row s v i p)) ->
  forall k i p, Forall P (drawn_rows s v i p k).
Proof.
  intros H k. induction k as [|k IH]; intros i p; simpl; constructor; auto.
Qed.

(** What the taxon chosen makes of a row: its species is its key, and
    its phylum is a protist or a metazoan one. *)
Lemma simulated_taxon (s : Sample) (i : nat) (t : taxon)
      (u_level score : Q) (reads : Z) (u_novel : Q) :
  In t sample_taxa ->
  let a := simulated s i t u_level score reads u_novel in
  In (species_key a) (map t_species sample_taxa)
  /\ Z.b2z (phylum_in protist_phylums a) + Z.b2z (phylum_in metazoan_phylums a) = 1
  /\ phylum_in cnidarian_phylums a = false
  /\ phylum_in fungi_phylums a = false.
Proof.
  intros Ht a. unfold a.
  destruct Ht as [<-|[<-|[<-|[<-|[]]]]]; vm_compute; intuition.
Qed.

Lemma drawn_row_facts (s : Sample) (v : nat -> Q) (i p : nat) :
  (forall n, (0 <= v n)%Q /\ (v n < 1)%Q) ->
  let a := drawn_row s v i p in
  sample a = pk s
  /\ 1 <= read_count a <= 50
  /\ In (species_key a) (map t_species sample_taxa)
  /\ Z.b2z (phylum_in protist_phylums a) + Z.b2z (phylum_in metazoan_phylums a) = 1
  /\ phylum_in cnidarian_phylums a = false
  /\ phylum_in fungi_phylums a = false.
Proof.
  intros Hv a. unfold a, drawn_row.
  destruct (Hv p) as [Hp0 Hp1]. destruct (Hv (3 + p)%nat) as [Hr0 Hr1].
  pose proof (scaled_floor_range _ (50 - 1 + 1) Hr0 Hr1 ltac:(lia)) as Hr.
  split; [reflexivity|]. split; [unfold simulated; cbn [read_count]; lia|].
  apply simulated_taxon. apply taxon_choice_in; assumption.
Qed.

Lemma group_reads_none (names : list string) (l : list TaxonomicAssignment) :
  Forall (fun a => phylum_in names a = false) l -> group_reads names l = 0.
Proof.
  induction 1 as [|a l Ha Hl IH]; [reflexivity|].
  rewrite group_reads_cons, Ha, IH. reflexivity.
Qed.

Lemma group_reads_two (l : list TaxonomicAssignment) :
  Forall (fun a => Z.b2z (phylum_in protist_phylums a)
                   + Z.b2z (phylum_in metazoan_phylums a) = 1) l ->
  group_reads protist_phylums l + group_reads metazoan_phylums l
  = zsum (map read_count l).
Proof.
  induction 1 as [|a l Ha Hl IH]; [reflexivity|].
  rewrite !group_reads_cons. simpl.
  destruct (phylum_in protist_phylums a), (phylum_in metazoan_phylums a);
    simpl in Ha; lia.
Qed.

Lemma zsum_between (lo hi : Z) (l : list Z) :
  Forall (fun c => lo <= c <= hi) l ->
  Z.of_nat (length l) * lo <= zsum l <= Z.of_nat (length l) * hi.
Proof.
  induction 1 as [|c l Hc Hl IH]; simpl length; simpl zsum; [lia|].
  rewrite Nat2Z.inj_succ. lia.
Qed.

(** The rows of a first run on a sample without assignments. *)
Lemma fresh_run (sample_pk : Z) (file_path : string) (s : Sample) (w : World) :
  unit_interval (rng w) ->
  find (fun s => pk s =? sample_pk) (samples (db w)) = Some s ->
  assignments_of s (db w) = [] ->
  let w1 := snd (process_sequence_file sample_pk file_path w) in
  fst (process_sequence_file sample_pk file_path w)
  = Ok (FileProcessed sample_pk (iterations w) file_path)
  /\ samples (db w1) = samples (db w)
  /\ assignments_of s (db w1)
     = drawn_rows s (variates (rng w)) 0 (S (cursor (rng w))) (Z.to_nat (iterations w)).
Proof.
  intros Hu Hs Hfresh.
  pose proof (iterations_range w Hu) as Hn.
  assert (earlier s 0 (taxonomic_assignments (db (advance 1 w)))) as He.
  { intros a Ha Hsa. exfalso.
    assert (In a (assignments_of s (db w))) as Hin.
    { unfold assignments_of. apply filter_In. split; [exact Ha|].
      apply Z.eqb_eq. exact Hsa. }
    rewrite Hfresh in Hin. exact Hin. }
  destruct (simulate_loop_completes s (Z.to_nat (iterations w)) 0 0 _ He)
    as [w' Hw'].
  rewrite process_sequence_file_eq, Hs, Hw'. simpl.
  apply simulate_loop_appends in Hw'.
  destruct Hw' as [k [Hrows [Hsm [_ [_ [_ [-> _]]]]]]].
  simpl in Hrows, Hsm. split; [|split; [exact Hsm|]].
  - rewrite Z2Nat.id by lia. reflexivity.
  - unfold assignments_of in *. simpl. rewrite Hrows, filter_app, Hfresh. simpl.
    apply forallb_filter_id. apply forallb_forall. intros a Ha.
    apply In_nth_error in Ha. destruct Ha as [j Hj].
    apply nth_drawn_rows in Hj. subst a. apply Z.eqb_eq. reflexivity.
Qed.

(** X15.  Under a generator that yields variates of [[0, 1)], a first
    run on a sample that has no assignment completes: it reports the
    number of iterations it drew, between 50 and 200, and the sample then
    has exactly that many assignments, with pairwise different sequence
    identifiers. *)
Theorem first_run_stores_every_row (sample_pk : Z) (file_path : string)
        (s : Sample) (w : World) :
  unit_interval (rng w) ->
  find (fun s => pk s =? sample_pk) (samples (db w)) = Some s ->
  assignments_of s (db w) = [] ->
  let w1 := snd (process_sequence_file sample_pk file_path w) in
  fst (process_sequence_file sample_pk file_path w)
  = Ok (FileProcessed sample_pk (iterations w) file_path)
  /\ 50 <= iterations w <= 200
  /\ Z.of_nat (length (assignments_of s (db w1))) = iterations w
  /\ NoDup (map sequence_id (assignments_of s (db w1))).
Proof.
  intros Hu Hs Hfresh w1.
  destruct (fresh_run sample_pk file_path s w Hu Hs Hfresh) as [Hr [_ Hrows]].
  fold w1 in Hrows. pose proof (iterations_range w Hu) as Hn.
  split; [exact Hr|]. split; [exact Hn|]. rewrite Hrows. split.
  - rewrite drawn_rows_length. lia.
  - generalize (Z.to_nat (iterations w)) as k.
    generalize (S (cursor (rng w))) as p.
    assert (forall k i p a, In a (drawn_rows s (variates (rng w)) i p k) ->
              exists j, (i <= j)%nat /\ sequence_id a = make_sequence_id s j) as Hin.
    { induction k as [|k IH]; intros i p a Ha; [destruct Ha|].
      destruct Ha as [<-|Ha].
      - exists i. split; [lia|reflexivity].
      - apply IH in Ha. destruct Ha as [j [Hj Hid]]. exists j. split; [lia|exact Hid]. }
    intros p k. generalize 0%nat as i. revert p.
    induction k as [|k IH]; intros p i; simpl; constructor.
    + intros Ha. apply in_map_iff in Ha. destruct Ha as [a [Hid Ha]].
      apply Hin in Ha. destruct Ha as [j [Hj Hid']].
      unfold drawn_row, simulated in Hid. cbn [sequence_id] in Hid.
      rewrite Hid' in Hid. apply make_sequence_id_inj in Hid. lia.
    + apply IH.
Qed.

Lemma first_run_stores_every_row_witness :
  fst (process_sequence_file 1 "/temp/S1.fastq" fresh_world)
  = Ok (FileProcessed 1 125 "/temp/S1.fastq").
Proof.
  destruct (first_run_stores_every_row 1 "/temp/S1.fastq" (mkSample 1 "S1") fresh_world)
    as [Hrun _].
  - intros n. split; [discriminate|reflexivity].
  - reflexivity.
  - reflexivity.
  - exact Hrun.
Defined.

(** X16.  After a first run on a sample without assignments, the metrics
    task it queued succeeds: it records between 1 and 4 observed OTUs, as
    many assigned sequences as the run made iterations, a read total
    between that number and 50 times it, and zero cnidarian and fungal
    percentages; every read of the sample is a protist or a metazoan
    read, the two group totals adding up to the recorded read total. *)
Theorem metrics_after_a_first_run (sample_pk : Z) (file_path : string)
        (s : Sample) (w : World) :
  unit_interval (rng w) ->
  find (fun s => pk s =? sample_pk) (samples (db w)) = Some s ->
  assignments_of s (db w) = [] ->
  let w1 := snd (process_sequence_file sample_pk file_path w) in
  exists m w2,
    calculate_biodiversity_metrics sample_pk w1
    = (Ok (MetricsDone sample_pk (shannon_diversity m) (simpson_diversity m)
                       (observed_otus m) (total_sequences m)), w2)
    /\ metrics_of sample_pk (db w2) = Some m
    /\ 1 <= observed_otus m <= 4
    /\ assigned_sequences m = iterations w
    /\ iterations w <= total_sequences m <= 50 * iterations w
    /\ group_reads protist_phylums (assignments_of s (db w1))
       + group_reads metazoan_phylums (assignments_of s (db w1))
       = total_sequences m
    /\ (cnidarian_percentage m == 0)%Q
    /\ (fungi_percentage m == 0)%Q.
Proof.
  intros Hu Hs Hfresh w1.
  destruct (fresh_run sample_pk file_path s w Hu Hs Hfresh) as [_ [Hsm Hrows]].
  fold w1 in Hsm, Hrows.
  pose proof (iterations_range w Hu) as Hn.
  set (l := drawn_rows s (variates (rng w)) 0 (S (cursor (rng w)))
                       (Z.to_nat (iterations w))) in *.
  assert (Forall (fun a => sample a = pk s
                           /\ 1 <= read_count a <= 50
                           /\ In (species_key a) (map t_species sample_taxa)
                           /\ Z.b2z (phylum_in protist_phylums a)
                              + Z.b2z (phylum_in metazoan_phylums a) = 1
                           /\ phylum_in cnidarian_phylums a = false
                           /\ phylum_in fungi_phylums a = false) l) as Hall.
  { apply drawn_rows_all. intros i p. apply (drawn_row_facts s _ i p Hu). }
  assert (length l = Z.to_nat (iterations w)) as Hlen by apply drawn_rows_length.
  assert (l <> []) as Hne.
  { intros E. rewrite E in Hlen. simpl in Hlen. lia. }
  assert (Forall (fun a => 1 <= read_count a) l) as Hl1.
  { eapply Forall_impl; [|exact Hall]. simpl. intros a Ha. lia. }
  destruct (compute_succeeds l Hne Hl1) as [m Hm].
  assert (pk s = sample_pk) as Hpk.
  { apply find_some in Hs. destruct Hs as [_ Hs']. apply Z.eqb_eq. exact Hs'. }
  pose proof (compute_fields l m Hm)
    as [_ [_ [_ [Hobs [Htot [Hass [_ [_ [Hp [Hme [Hcn Hfu]]]]]]]]]]].
  pose proof (total_reads_pos l Hne Hl1) as Hpos.
  exists m. eexists. split; [|split].
  - rewrite calculate_eq, Hsm, Hs, Hrows.
    destruct l as [|a l'] eqn:El; [congruence|]. rewrite Hm. reflexivity.
  - unfold metrics_of. simpl. rewrite Hpk, upsert_find. reflexivity.
  - split; [|split; [|split; [|split; [|split]]]].
    + rewrite Hobs. unfold otus.
      destruct (fold_add_group_keys l []) as [Hnd Hin].
      rewrite <- species_counts_fold in Hnd, Hin. specialize (Hnd (NoDup_nil _)).
      assert (length (keys (species_counts l)) <= length (map t_species sample_taxa))%nat
        as Hle.
      { apply NoDup_incl_length; [exact Hnd|].
        intros k Hk. apply Hin in Hk. destruct Hk as [[]|Hk].
        apply in_map_iff in Hk. destruct Hk as [a [<- Ha]].
        rewrite Forall_forall in Hall. apply (Hall a Ha). }
      unfold keys in Hle. rewrite length_map in Hle. simpl in Hle.
      pose proof (species_counts_not_nil l Hne) as Hd.
      destruct (species_counts l); [congruence|]. simpl length in *. lia.
    + rewrite Hass. unfold count_all. rewrite Hlen. lia.
    + rewrite Htot, total_reads_sum.
      assert (Forall (fun c => 1 <= c <= 50) (map read_count l)) as Hb.
      { rewrite Forall_map. eapply Forall_impl; [|exact Hall]. simpl. intros a Ha. lia. }
      apply zsum_between in Hb. rewrite length_map, Hlen in Hb.
      rewrite Z2Nat.id in Hb by lia. lia.
    + rewrite Hrows, Htot, total_reads_sum. apply group_reads_two.
      eapply Forall_impl; [|exact Hall]. simpl. intros a Ha. apply Ha.
    + rewrite Hcn, (percentage_pos _ _ Hpos), group_reads_none.
      * unfold Qeq. simpl. reflexivity.
      * eapply Forall_impl; [|exact Hall]. simpl. intros a Ha. apply Ha.
    + rewrite Hfu, (percentage_pos _ _ Hpos), group_reads_none.
      * unfold Qeq. simpl. reflexivity.
      * eapply Forall_impl; [|exact Hall]. simpl. intros a Ha. apply Ha.
Qed.

Lemma metrics_after_a_first_run_witness :
  exists m,
    metrics_of 1 (db (snd (calculate_biodiversity_metrics 1
                             (snd (process_sequence_file 1 "/temp/S1.fastq"
                                                         fresh_world)))))
    = Some m
    /\ 1 <= observed_otus m <= 4.
Proof.
  destruct (metrics_after_a_first_run 1 "/temp/S1.fastq" (mkSample 1 "S1") fresh_world)
    as [m [w2 [Hrun [Hget [Hobs _]]]]].
  - intros n. split; [discriminate|reflexivity].
  - reflexivity.
  - reflexivity.
  - exists m. split; [|exact Hobs]. rewrite Hrun. exact Hget.
Defined.

End TaskExtra.

(** ** The metrics do not depend on the order of the rows *)

Module OrderFacts.
Import Metrics Closed Query Compare GroupingFacts MetricsFacts MetricsExtra Fixtures.

Lemma zsum_perm (l l' : list Z) : Permutation l l' -> zsum l = zsum l'.
Proof. induction 1; simpl; lia. Qed.

Lemma filter_perm {A : Type} (f : A -> bool) (l l' : list A) :
  Permutation l l' -> Permutation (filter f l) (filter f l').
Proof.
  induction 1 as [|x l l' H IH|x y l|l l' l'' H1 IH1 H2 IH2]; simpl.
  - constructor.
  - destruct (f x); [constructor|]; exact IH.
  - destruct (f x), (f y); try apply Permutation_refl. apply perm_swap.
  - eapply Permutation_trans; eassumption.
Qed.

Lemma existsb_perm {A : Type} (f : A -> bool) (l l' : list A) :
  Permutation l l' -> existsb f l = existsb f l'.
Proof.
  induction 1 as [|x l l' H IH|x y l|l l' l'' H1 IH1 H2 IH2]; simpl.
  - reflexivity.
  - rewrite IH. reflexivity.
  - destruct (f x), (f y); reflexivity.
  - congruence.
Qed.

Lemma group_reads_perm (names : list string) (l l' : list TaxonomicAssignment) :
  Permutation l l' -> group_reads names l = group_reads names l'.
Proof.
  intros H. unfold group_reads. apply zsum_perm, Permutation_map, filter_perm, H.
Qed.

Lemma dict_get_in (d : list (string * Z)) :
  NoDup (keys d) ->
  forall k v, In (k, v) d <-> dict_get k d = Some v.
Proof.
  unfold keys. induction d as [|[k0 v0] d IH]; simpl; intros Hnd k v.
  - split; [intros []|discriminate].
  - inversion Hnd as [|? ? Hnot Hd]; subst.
    destruct (String.eqb_spec k0 k) as [->|Hne].
    + split.
      * intros [E|Hin]; [congruence|]. exfalso. apply Hnot.
        apply in_map_iff. exists (k, v). split; [reflexivity|exact Hin].
      * intros E. left. congruence.
    + rewrite <- (IH Hd). split.
      * intros [E|Hin]; [congruence|exact Hin].
      * intros Hin. right. exact Hin.
Qed.

Lemma nodup_pairs (d : list (string * Z)) : NoDup (keys d) -> NoDup d.
Proof. unfold keys. apply NoDup_map_inv. Qed.

(** Reordering the assignments reorders the groups, nothing else. *)
Lemma species_counts_perm (l l' : list TaxonomicAssignment) :
  Permutation l l' -> Permutation (species_counts l) (species_counts l').
Proof.
  intros H.
  destruct (fold_add_group_keys l []) as [Hnd _].
  destruct (fold_add_group_keys l' []) as [Hnd' _].
  rewrite <- species_counts_fold in Hnd, Hnd'.
  specialize (Hnd (NoDup_nil _)). specialize (Hnd' (NoDup_nil _)).
  apply NoDup_Permutation; try (apply nodup_pairs; assumption).
  intros [k v]. rewrite (dict_get_in _ Hnd), (dict_get_in _ Hnd').
  rewrite !species_counts_get. rewrite (existsb_perm _ _ _ H).
  unfold reads_of_key.
  rewrite (zsum_perm _ _ (Permutation_map read_count (filter_perm (has_key k) _ _ H))).
  reflexivity.
Qed.

Lemma shannon_loop_perm (counts counts' : list Z) (total : Z) :
  Permutation counts counts' ->
  forall acc, shannon_loop counts total acc = shannon_loop counts' total acc.
Proof.
  induction 1 as [|x l l' H IH|x y l|l l' l'' H1 IH1 H2 IH2]; intros acc; simpl.
  - reflexivity.
  - destruct (x >? 0); [|apply IH].
    destruct (truediv x total); simpl; [apply IH|reflexivity].
  - unfold truediv. destruct (total =? 0) eqn:Et.
    + destruct (x >? 0), (y >? 0); reflexivity.
    + destruct (x >? 0), (y >? 0); simpl; try reflexivity.
      f_equal. Lra.lra.
  - rewrite IH1. apply IH2.
Qed.

Lemma simpson_loop_acc (counts : list Z) (total : Z) :
  forall acc acc', (acc == acc')%Q ->
    agree Qeq (simpson_loop counts total acc) (simpson_loop counts total acc').
Proof.
  induction counts as [|c rest IH]; intros acc acc' E; simpl.
  - exact E.
  - destruct (c >? 0); [|apply IH; exact E].
    destruct (truediv c total) as [p|e]; simpl; [|reflexivity].
    apply IH. rewrite E. reflexivity.
Qed.

Lemma agree_trans (r1 r2 r3 : pyresult Q) :
  agree Qeq r1 r2 -> agree Qeq r2 r3 -> agree Qeq r1 r3.
Proof.
  destruct r1, r2, r3; simpl; try contradiction; try congruence.
  apply Qeq_trans.
Qed.

Lemma simpson_loop_perm (counts counts' : list Z) (total : Z) :
  Permutation counts counts' ->
  forall acc, agree Qeq (simpson_loop counts total acc) (simpson_loop counts' total acc).
Proof.
  induction 1 as [|x l l' H IH|x y l|l l' l'' H1 IH1 H2 IH2]; intros acc; simpl.
  - reflexivity.
  - destruct (x >? 0); [|apply IH].
    destruct (truediv x total); simpl; [apply IH|reflexivity].
  - unfold truediv. destruct (total =? 0) eqn:Et.
    + destruct (x >? 0), (y >? 0); simpl; try reflexivity.
      apply simpson_loop_acc. reflexivity.
    + destruct (x >? 0), (y >? 0); simpl; apply simpson_loop_acc; try reflexivity.
      ring.
  - eapply agree_trans; [apply IH1|apply IH2].
Qed.

Lemma count_eq_perm (n : Z) (d d' : list (string * Z)) :
  Permutation d d' -> count_eq n d = count_eq n d'.
Proof.
  intros H. unfold count_eq, values. f_equal.
  apply Permutation_length, filter_perm, Permutation_map, H.
Qed.

(** The two sums do depend on the order as doubles: the counts 1, 1, 3
    and 3, 1, 1 of five reads give Simpson values that differ in the last
    digit, 0.56000000000000005 and 0.55999999999999994. *)
Lemma simpson_order_in_doubles :
  Doubles.simpson [1; 1; 3] 5 <> Doubles.simpson [3; 1; 1] 5
  /\ Doubles.value (Doubles.simpson [1; 1; 3] 5)
     = Some (5044031582654956 # 9007199254740992)%Q
  /\ Doubles.value (Doubles.simpson [3; 1; 1] 5)
     = Some (5044031582654955 # 9007199254740992)%Q.
Proof.
  split; [vm_compute; discriminate|]. split; vm_compute; reflexivity.
Qed.

(** X17.  The outcome of the computation does not depend on the order
    in which the queryset yields the assignments: two orders of the same
    rows raise the same exception, or give metrics with the same integer
    columns, the same Chao1 value, assignment rate and group percentages
    (each one division of the same integers) and, in exact arithmetic,
    the same Shannon and Simpson values. *)
Theorem metrics_ignore_row_order (l l' : list TaxonomicAssignment) :
  Permutation l l' -> agree same_metrics (compute l) (compute l').
Proof.
  intros H.
  pose proof (species_counts_perm l l' H) as Hd.
  assert (total_reads l = total_reads l') as Ht.
  { rewrite !total_reads_sum. apply zsum_perm, Permutation_map, H. }
  assert (Permutation (values (species_counts l)) (values (species_counts l'))) as Hv.
  { unfold values. apply Permutation_map, Hd. }
  assert (otus (species_counts l) = otus (species_counts l')) as Ho.
  { unfold otus. f_equal. apply Permutation_length, Hd. }
  pose proof (shannon_loop_perm _ _ (total_reads l) Hv 0%R) as Hs.
  pose proof (simpson_loop_perm _ _ (total_reads l) Hv 0%Q) as Hq.
  unfold compute, shannon, simpson. rewrite <- Ht, <- Hs.
  destruct (shannon_loop (values (species_counts l)) (total_reads l) 0%R) as [h|e];
    simpl; [|reflexivity].
  destruct (simpson_loop (values (species_counts l)) (total_reads l) 0%Q) as [q|e];
    destruct (simpson_loop (values (species_counts l')) (total_reads l) 0%Q) as [q'|e'];
    simpl in Hq |- *; try contradiction; [|exact Hq].
  unfold same_metrics. simpl.
  unfold chao1, singletons, doubletons.
  rewrite <- Ho, <- (count_eq_perm 1 _ _ Hd), <- (count_eq_perm 2 _ _ Hd).
  rewrite <- !(group_reads_perm _ _ _ H).
  assert (count_all l = count_all l') as ->.
  { unfold count_all. f_equal. apply Permutation_length, H. }
  assert (count_novel l = count_novel l') as ->.
  { unfold count_novel. f_equal. apply Permutation_length, filter_perm, H. }
  rewrite Hq. repeat split; reflexivity.
Qed.

Lemma metrics_ignore_row_order_witness :
  agree same_metrics (compute scenario3) (compute (rev scenario3)).
Proof.
  apply (metrics_ignore_row_order scenario3 (rev scenario3)).
  apply Permutation_rev.
Defined.

End OrderFacts.

(** ** Facts about the methods of [TaxonomicAssignment] *)

Module ModelFacts.
Import Metrics Models Orm PyRandom Tasks TaskFacts TaskExtra Fixtures.

(** X18.  The label printed by [__str__] is the first of species, genus
    and family that is neither null nor blank, and ["Unknown"] when there
    is none.  On a named species it is the grouping key of the metrics; on
    a genus alone the key is the label followed by ["_sp"]; and on an
    assignment without species and genus the key is never the label
    ["Unknown"] that [__str__] falls back to. *)
Theorem label_and_grouping_key (a : TaxonomicAssignment) :
  (forall name, species a = Some name -> name <> "" ->
     label a = name /\ species_key a = name)
  /\ (forall name, blank (species a) -> genus a = Some name -> name <> "" ->
        label a = name /\ species_key a = (name ++ "_sp")%string)
  /\ (forall name, blank (species a) -> blank (genus a) ->
        family a = Some name -> name <> "" -> label a = name)
  /\ (blank (species a) -> blank (genus a) -> blank (family a) ->
        label a = "Unknown" /\ species_key a <> "Unknown").
Proof.
  unfold label, species_key, or_else, or_opt, or_str, blank.
  split; [|split; [|split]].
  - intros name -> Hne. apply String.eqb_neq in Hne. rewrite !Hne. auto.
  - intros name [-> | ->] -> Hne; apply String.eqb_neq in Hne; simpl;
      rewrite ?Hne; (split; [reflexivity|]);
      destruct name; [discriminate| |discriminate|]; reflexivity.
  - intros name [-> | ->] [-> | ->] -> Hne; apply String.eqb_neq in Hne; simpl;
      rewrite ?Hne; reflexivity.
  - intros [-> | ->] [-> | ->] [-> | ->]; simpl; split;
      try reflexivity; discriminate.
Qed.

Lemma taxon_texts (s : Sample) (i : nat) (t : taxon)
      (u_level score : Q) (reads : Z) (u_novel : Q) :
  In t sample_taxa ->
  let a := simulated s i t u_level score reads u_novel in
  full_taxonomy a
  = (t_kingdom t ++ " > " ++ t_phylum t ++ " > " ++ t_genus t ++ " > "
     ++ t_species t)%string
  /\ str a = (sequence_id a ++ " - " ++ t_species t)%string.
Proof.
  intros Ht a. unfold a.
  destruct Ht as [<-|[<-|[<-|[<-|[]]]]]; split; reflexivity.
Qed.

(** X19.  Under a generator that yields variates of [[0, 1)], every row
    a run of [process_sequence_file] stores prints as
    ["<sequence_id> - <species>"] and has the full taxonomy
    ["<kingdom> > <phylum> > <genus> > <species>"] of one of the four
    entries of [sample_taxa]: the null class, order and family leave no
    gap. *)
Theorem stored_rows_print_their_taxon (sample_pk : Z) (file_path : string) (w : World) :
  unit_interval (rng w) ->
  exists rows,
    taxonomic_assignments (db (snd (process_sequence_file sample_pk file_path w)))
    = (taxonomic_assignments (db w) ++ rows)%list
    /\ Forall (fun a =>
                 exists t, In t sample_taxa
                   /\ full_taxonomy a
                      = (t_kingdom t ++ " > " ++ t_phylum t ++ " > "
                         ++ t_genus t ++ " > " ++ t_species t)%string
                   /\ str a = (sequence_id a ++ " - " ++ t_species t)%string)
              rows.
Proof.
  intros Hu. destruct (process_rows sample_pk file_path w) as [s [k Hrows]].
  eexists. split; [exact Hrows|].
  apply Forall_forall. intros a Ha.
  apply In_nth_error in Ha. destruct Ha as [j Hj].
  apply nth_drawn_rows in Hj. subst a.
  set (p := (5 * j + (1 + cursor (rng w)))%nat).
  destruct (Hu p) as [Hp0 Hp1].
  pose proof (taxon_choice_in _ Hp0 Hp1) as Hin.
  eexists. split; [exact Hin|].
  unfold drawn_row. apply taxon_texts. exact Hin.
Qed.

Lemma stored_rows_print_their_taxon_witness :
  exists rows,
    taxonomic_assignments processed = (taxonomic_assignments one_sample ++ rows)%list
    /\ Forall (fun a => exists t, In t sample_taxa
                         /\ str a = (sequence_id a ++ " - " ++ t_species t)%string)
              rows.
Proof.
  assert (unit_interval (rng fresh_world)) as Hu.
  { intros n. split; [discriminate|reflexivity]. }
  destruct (stored_rows_print_their_taxon 1 "/temp/S1.fastq" fresh_world Hu)
    as [rows [Hrows Hall]].
  exists rows. split; [exact Hrows|].
  eapply Forall_impl; [|exact Hall]. simpl.
  intros a [t [Ht [_ Hstr]]]. exists t. split; assumption.
Defined.

End ModelFacts.

(** ** Facts about [run_analysis_pipeline] *)

Module PipelineFacts.
Import Orm PyRandom Tasks Pipeline TaskFacts Fixtures Cases.

Lemma in_world_randint (a b : Z) (st : Site) :
  in_world (randint a b) st
  = (Ok (a + Qfloor (variates (rng (world st)) (cursor (rng (world st)))
                     * inject_Z (b - a + 1))),
     {| world := advance 1 (world st); pipelines := pipelines st; jobs := jobs st;
        readings := readings st; tick := tick st |}).
Proof. reflexivity. Qed.

Lemma randint_range (a b : Z) (u : Q) :
  (0 <= u)%Q -> (u < 1)%Q -> a <= b ->
  a <= a + Qfloor (u * inject_Z (b - a + 1)) <= b.
Proof.
  intros H0 H1 Hab.
  pose proof (scaled_floor_range u (b - a + 1) H0 H1 ltac:(lia)). lia.
Qed.

Lemma samples_loop_run (ss : list Sample) :
  forall (total assigned novel : Z) (st : Site),
    unit_interval (rng (world st)) ->
    exists T A N st',
      samples_loop ss total assigned novel st
      = (Ok (total + T, assigned + A, novel + N), st')
      /\ Z.of_nat (length ss) * 1000 <= T <= Z.of_nat (length ss) * 5000
      /\ Z.of_nat (length ss) * 600 <= A <= Z.of_nat (length ss) * 3000
      /\ Z.of_nat (length ss) * 5 <= N <= Z.of_nat (length ss) * 50
      /\ db (world st') = db (world st)
      /\ variates (rng (world st')) = variates (rng (world st))
      /\ cursor (rng (world st')) = (3 * length ss + cursor (rng (world st)))%nat
      /\ pipelines st' = pipelines st
      /\ jobs st' = (jobs st ++ map job_of ss)%list
      /\ readings st' = readings st
      /\ tick st' = tick st.
Proof.
  induction ss as [|s rest IH]; intros total assigned novel st Hu.
  - exists 0, 0, 0, st. simpl. rewrite !Z.add_0_r, List.app_nil_r.
    repeat split; lia.
  - simpl samples_loop. unfold sbind at 1. unfold enqueue at 1.
    unfold sbind at 1. rewrite in_world_randint.
    unfold sbind at 1. rewrite in_world_randint.
    unfold sbind at 1. rewrite in_world_randint.
    match goal with
    | |- context [samples_loop rest ?t ?a ?n ?st1] =>
        destruct (IH t a n st1) as [T [A [N [st' [Hrun H]]]]]
    end.
    { exact Hu. }
    destruct H as [HT [HA [HN [Hdb [Hv [Hc [Hp [Hj [Hr Ht]]]]]]]]].
    cbn [world rng variates cursor advance db pipelines jobs readings tick] in *.
    destruct (Hu (cursor (rng (world st)))) as [Ha0 Ha1].
    destruct (Hu (1 + cursor (rng (world st)))%nat) as [Hb0 Hb1].
    destruct (Hu (1 + (1 + cursor (rng (world st))))%nat) as [Hc0 Hc1].
    pose proof (randint_range 1000 5000 _ Ha0 Ha1 ltac:(lia)) as Ra.
    pose proof (randint_range 600 3000 _ Hb0 Hb1 ltac:(lia)) as Rb.
    pose proof (randint_range 5 50 _ Hc0 Hc1 ltac:(lia)) as Rc.
    eexists _, _, _, st'. split.
    + rewrite Hrun, <- !Z.add_assoc. reflexivity.
    + simpl length. rewrite Nat2Z.inj_succ.
      rewrite Hj, <- List.app_assoc.
      repeat split; try assumption; try reflexivity; try lia.
Qed.

Lemma save_row_find (p : AnalysisPipeline) (rows : list AnalysisPipeline) :
  find (fun q => pipeline_pk q =? pipeline_pk p) (save_row p rows) = Some p.
Proof.
  induction rows as [|q rows IH]; simpl.
  - rewrite Z.eqb_refl. reflexivity.
  - destruct (pipeline_pk q =? pipeline_pk p) eqn:E; simpl.
    + rewrite Z.eqb_refl. reflexivity.
    + rewrite E. exact IH.
Qed.

Lemma save_row_find_other (p : AnalysisPipeline) (k : Z) (rows : list AnalysisPipeline) :
  k <> pipeline_pk p ->
  find (fun q => pipeline_pk q =? k) (save_row p rows)
  = find (fun q => pipeline_pk q =? k) rows.
Proof.
  intros Hne. induction rows as [|q rows IH]; simpl.
  - apply not_eq_sym, Z.eqb_neq in Hne. rewrite Hne. reflexivity.
  - destruct (pipeline_pk q =? pipeline_pk p) eqn:E; simpl.
    + apply Z.eqb_eq in E. rewrite E.
      apply not_eq_sym, Z.eqb_neq in Hne. rewrite Hne. reflexivity.
    + destruct (pipeline_pk q =? k); [reflexivity|exact IH].
Qed.

(** X20.  For a pipeline that does not exist the task returns the
    dictionary of "Pipeline ... not found" and changes nothing: no row is
    written, no job is queued, the clock and the generator are not
    read. *)
Theorem missing_pipeline_is_reported (pipeline : Z) (st : Site) :
  pipeline_of pipeline st = None ->
  run_analysis_pipeline pipeline st = (Ok (PipelineNotFound pipeline), st).
Proof.
  unfold pipeline_of. intros H.
  unfold run_analysis_pipeline, stry, pipeline_body, sbind, get_pipeline.
  rewrite H. reflexivity.
Qed.

Lemma missing_pipeline_is_reported_witness :
  run_analysis_pipeline 11 station = (Ok (PipelineNotFound 11), station).
Proof. apply (missing_pipeline_is_reported 11 station). reflexivity. Defined.



End PipelineFacts.

(** ** The Chao1 estimator *)

Module Chao1Facts.
Import Metrics Query GroupingFacts MetricsFacts MetricsExtra OrderFacts Fixtures.

Lemma count_by_key (f : string -> Z) (n : Z) (d : list (string * Z)) :
  (forall k v, In (k, v) d -> v = f k) ->
  length (filter (fun c => c =? n) (values d))
  = length (filter (fun k => f k =? n) (keys d)).
Proof.
  unfold values, keys. induction d as [|[k v] d IH]; intros H; [reflexivity|].
  simpl. rewrite <- (H k v (or_introl eq_refl)).
  destruct (v =? n); simpl; rewrite IH; auto; intros k' v' Hin; apply H; right; exact Hin.
Qed.

(** The counter [sum(1 for count in species_counts.values() if count == n)]
    counts the species groups with exactly [n] reads. *)
Lemma count_eq_groups (n : Z) (l : list TaxonomicAssignment) :
  count_eq n (species_counts l) = groups_of_size n l.
Proof.
  destruct (groups_keys l) as [Hnd Hkeys].
  unfold count_eq, groups_of_size. f_equal.
  rewrite (count_by_key (fun k => reads_of_key k l)).
  - apply Permutation_length, filter_perm.
    apply NoDup_Permutation; [exact Hnd|apply NoDup_nodup|].
    intros k. rewrite Hkeys. unfold distinct_keys. rewrite nodup_In. reflexivity.
  - intros k v Hin. apply (dict_get_in _ Hnd) in Hin.
    rewrite species_counts_get in Hin.
    destruct (existsb (has_key k) l); congruence.
Qed.

Lemma otus_distinct (l : list TaxonomicAssignment) :
  otus (species_counts l) = Z.of_nat (length (distinct_keys l)).
Proof.
  destruct (groups_keys l) as [Hnd Hkeys]. unfold otus. f_equal.
  replace (length (species_counts l)) with (length (keys (species_counts l)))
    by apply length_map.
  apply Permutation_length.
  apply NoDup_Permutation; [exact Hnd|apply NoDup_nodup|].
  intros k. rewrite Hkeys. unfold distinct_keys. rewrite nodup_In. reflexivity.
Qed.

(** C4.  For a non-empty assignment set, let [observed] be the number of
    distinct species keys and [f1], [f2] the numbers of species groups
    whose read counts sum to exactly 1 and exactly 2.  The Chao1 value the
    code computes is at least [observed]; it is
    [observed + f1^2 / (2 f2)] when [f2 > 0] and [observed] when
    [f2 = 0]; and [compute] stores this value as [chao1_richness] and
    [observed] as [observed_otus]. *)
Theorem chao1_at_least_observed (l : list TaxonomicAssignment) :
  l <> [] ->
  let observed := Z.of_nat (length (distinct_keys l)) in
  let f1 := groups_of_size 1 l in
  let f2 := groups_of_size 2 l in
  (inject_Z observed <= chao1 (species_counts l))%Q
  /\ (0 < f2 ->
      (chao1 (species_counts l)
       == inject_Z observed + inject_Z f1 * inject_Z f1 / (2 * inject_Z f2))%Q)
  /\ (f2 = 0 -> chao1 (species_counts l) = inject_Z observed)
  /\ (forall m, compute l = Ok m ->
        chao1_richness m = chao1 (species_counts l) /\ observed_otus m = observed).
Proof.
  intros _ observed f1 f2. unfold observed, f1, f2.
  rewrite <- otus_distinct, <- !count_eq_groups.
  fold (singletons (species_counts l)). fold (doubletons (species_counts l)).
  destruct (chao1_by_counters (species_counts l)) as [H1 [H2 H3]].
  split; [exact H1|]. split; [exact H2|]. split; [exact H3|].
  intros m Hm. split; apply (compute_fields l m Hm).
Qed.

Lemma chao1_at_least_observed_witness :
  scenario3 <> []
  /\ groups_of_size 1 scenario3 = 2 /\ groups_of_size 2 scenario3 = 1
  /\ (chao1 (species_counts scenario3) == 5)%Q.
Proof.
  split; [discriminate|]. split; [reflexivity|]. split; [reflexivity|].
  destruct (chao1_at_least_observed scenario3 ltac:(discriminate)) as [_ [H _]].
  rewrite H by reflexivity. reflexivity.
Defined.

End Chao1Facts.
